(** * tools/bench.py: the benchmark orchestrator of ssg

    A shallow embedding of [tools/bench.py] and the properties of its
    selection, command-construction and exit-code aggregation logic.

    The script is effectful: it prints, reads and copies the process
    environment, and spawns child processes.  Those effects are modelled by
    explicit state passing over a [World] that holds the process
    environment, the dictionaries the process allocates (so that copies and
    aliases can be told apart), the outcomes the child processes will have,
    and the trace of observable events in the order they happen. *)

From Stdlib Require Import ZArith String List Ascii Bool Lia.
From stdpp Require Import base option list gmap strings.
Import ListNotations.

Local Open Scope string_scope.
Local Open Scope list_scope.

(** ** Python values *)

(** A [dict[str, str]] whose iteration order matters (the two bench tables):
    the items in insertion order.  A list stands for a dict when its keys
    are pairwise distinct ([dict_wf]). *)
Definition Registry : Type := list (string * string).

Definition dict_wf (table : Registry) : Prop := NoDup (map fst table).

(** [table[key]], [None] standing for [KeyError]. *)
Fixpoint getitem (table : Registry) (key : string) : option string :=
  match table with
  | [] => None
  | (k, v) :: rest => if String.eqb k key then Some v else getitem rest key
  end.

(** [table.keys()], [table.values()], [table.items()]. *)
Definition keys (table : Registry) : list string := map fst table.
Definition values (table : Registry) : list string := map snd table.
Definition items (table : Registry) : list (string * string) := table.

(** The line feed of ["\n"]. *)
Definition LF : string := String "010" EmptyString.

(** [' '.join(cmd)]. *)
Definition join (sep : string) (parts : list string) : string :=
  String.concat sep parts.

(** [f"{k:12}"]: a string is left-aligned in a field of twelve columns and
    padded with spaces; a longer one is not cut.  (The length is counted in
    characters of the embedding's strings, which for the ASCII keys of the
    tables is Python's [len].) *)
Fixpoint spaces (n : nat) : string :=
  match n with
  | O => EmptyString
  | S n' => " " +:+ spaces n'
  end.

Definition ljust (width : nat) (s : string) : string :=
  s +:+ spaces (width - String.length s).

(** [needle in hay] on strings. *)
Fixpoint contains (needle hay : string) : bool :=
  String.prefix needle hay
  || match hay with
     | EmptyString => false
     | String _ hay' => contains needle hay'
     end.

(** ** The module's constants (lines 31-41) *)

Record Globals : Type := mkGlobals {
  CRITERION_BENCHES : Registry;
  DHAT_BENCHES : Registry
}.

(** The functions below read the two tables through a [Globals] value, as
    the Python functions read the module's global names; [bench_py] is the
    module as it is written. *)
Definition bench_py : Globals :=
  {| CRITERION_BENCHES :=
       [ ("pipeline", "criterion_pipeline");
         ("transformers", "criterion_transformers");
         ("io", "criterion_io") ];
     DHAT_BENCHES :=
       [ ("build", "dhat_build");
         ("transformers", "dhat_transformers");
         ("compress", "dhat_compress") ] |}.

(** ** The dataclasses (lines 44-68) *)

Module RunArgs.
Record t : Type := mk { bench : string; native : bool; extra : list string }.
End RunArgs.

Module DhatArgs.
Record t : Type := mk { bench : string; extra : list string }.
End DhatArgs.

Module Args.
Record t : Type := mk {
  command : string;
  bench : string;
  native : bool;
  extra : list string
}.
(** [Args.__init__]. *)
Definition init : t :=
  {| command := EmptyString; bench := EmptyString; native := false;
     extra := [] |}.
End Args.

(** ** The world the script runs in *)

(** The environment of a process: variable names to values. *)
Abbreviation Env := (gmap string string).

(** A reference to a dictionary object: [os.environ] itself, or a dict
    allocated by this process, named by its address. *)
Inductive Ref : Type :=
| os_environ
| obj (address : nat).

(** What a child process does: it exits with a return code (negative when a
    signal killed it), or it cannot be launched at all and
    [subprocess.call] raises [OSError]. *)
Inductive Outcome : Type :=
| Exited (returncode : Z)
| LaunchFailed.

(** Observable events.  A [Call] records the argument vector, the [env=]
    argument as passed ([None] when absent), and the environment the child
    receives, read at the moment of the call. *)
Inductive Event : Type :=
| Stdout (text : string)
| Stderr (text : string)
| Call (cmd : list string) (env : option Ref) (child_env : Env).

(** The command line after argparse has split [sys.argv[1:]] into a
    subcommand, its options and the remainder; what argparse then does with
    it is in [parse_args].  The remainder is what [nargs=REMAINDER] collects:
    everything from the first argument that is not an option on, a leading
    [--] included ([run --bench io -- --baseline main] leaves
    [-- --baseline main]).  [cli_malformed] stands for every command line
    argparse rejects before it looks at a value of [--bench]: no subcommand,
    an unknown one, an unknown option, an argument after [list]. *)
Inductive CommandLine : Type :=
| cli_run (bench : option string) (native : bool) (extra : list string)
| cli_dhat (bench : option string) (extra : list string)
| cli_list
| cli_malformed.

Record World : Type := mkWorld {
  sys_argv : CommandLine;
  environ : Env;               (* the contents of os.environ *)
  objects : list Env;          (* the dicts this process allocated *)
  children : nat -> Outcome;   (* the outcome of the n-th child spawned *)
  spawned : nat;               (* how many children were spawned so far *)
  trace : list Event           (* what happened, oldest first *)
}.

(** ** Exceptions and the monad of the script *)

Inductive Exn : Type :=
| KeyError (key : string)
| OSError
| SystemExit (code : Z).

Inductive Result (A : Type) : Type :=
| Ok (a : A)
| Raise (e : Exn).
Arguments Ok {A} a.
Arguments Raise {A} e.

Definition M (A : Type) : Type := World -> Result A * World.

Definition ret {A : Type} (a : A) : M A := fun w => (Ok a, w).

Definition raise {A : Type} (e : Exn) : M A := fun w => (Raise e, w).

Definition bind {A B : Type} (m : M A) (k : A -> M B) : M B :=
  fun w =>
    match m w with
    | (Ok a, w') => k a w'
    | (Raise e, w') => (Raise e, w')
    end.

Declare Scope py_scope.
Delimit Scope py_scope with py.
Notation "'do' x <- m ; k" := (bind m (fun x => k))
  (at level 10, x name, m at level 100, k at level 200) : py_scope.
Notation "m ;; k" := (bind m (fun _ => k))
  (at level 100, k at level 200, right associativity) : py_scope.
Local Open Scope py_scope.

(** A pure computation that may raise. *)
Definition lift {A : Type} (r : Exn + A) : M A :=
  match r with
  | inl e => raise e
  | inr a => ret a
  end.

Definition emit (e : Event) : M unit :=
  fun w =>
    (Ok tt,
     {| sys_argv := sys_argv w; environ := environ w; objects := objects w;
        children := children w; spawned := spawned w;
        trace := trace w ++ [e] |}).

(** [print(text)] and [print(text, file=sys.stderr)]; the newline that
    [print] adds after the text is left out of the event. *)
Definition print (text : string) : M unit := emit (Stdout text).
Definition eprint (text : string) : M unit := emit (Stderr text).

(** The contents of the dict a reference points to. *)
Definition deref (w : World) (r : Ref) : Env :=
  match r with
  | os_environ => environ w
  | obj a => default ∅ (objects w !! a)
  end.

(** [os.environ.copy()]: a new dict with the contents of [os.environ]. *)
Definition os_environ_copy : M Ref :=
  fun w =>
    (Ok (obj (length (objects w))),
     {| sys_argv := sys_argv w; environ := environ w;
        objects := objects w ++ [environ w];
        children := children w; spawned := spawned w; trace := trace w |}).

(** [d.get(key, dflt)]. *)
Definition dict_get (d : Ref) (key dflt : string) : M string :=
  fun w => (Ok (default dflt (deref w d !! key)), w).

(** [d[key] = value]: the dict is changed in place, for every holder of the
    reference. *)
Definition dict_setitem (d : Ref) (key value : string) : M unit :=
  fun w =>
    (Ok tt,
     match d with
     | os_environ =>
         {| sys_argv := sys_argv w; environ := <[key := value]> (environ w);
            objects := objects w;
            children := children w; spawned := spawned w; trace := trace w |}
     | obj a =>
         {| sys_argv := sys_argv w; environ := environ w;
            objects := <[a := <[key := value]> (deref w d)]> (objects w);
            children := children w; spawned := spawned w; trace := trace w |}
     end).

(** [subprocess.call(cmd, cwd=REPO_ROOT, env=env)]: blocks until the child
    has exited and returns its return code.  Without [env=] the child
    inherits [os.environ].  (The working directory is the same constant in
    every call and is not recorded.) *)
Definition subprocess_call (cmd : list string) (env : option Ref) : M Z :=
  fun w =>
    let w' :=
      {| sys_argv := sys_argv w; environ := environ w; objects := objects w;
         children := children w; spawned := S (spawned w);
         trace := trace w ++ [Call cmd env (deref w (default os_environ env))] |}
    in
    match children w (spawned w) with
    | Exited rc => (Ok rc, w')
    | LaunchFailed => (Raise OSError, w')
    end.

(** [for x in xs: s = body(x, s)]: a loop over a list that the body does
    not change, threading the variables the body assigns. *)
Fixpoint for_each {A S : Type} (xs : list A) (body : A -> S -> M S) (s : S)
  : M S :=
  match xs with
  | [] => ret s
  | x :: rest => do s' <- body x s; for_each rest body s'
  end.

(** ** The script *)

Section Script.

Variable G : Globals.

(** Lines 71-73. *)
Definition run_cmd (cmd : list string) : M Z :=
  print ("+ " +:+ join " " cmd) ;;
  subprocess_call cmd None.

(** [parser.error(message)]: argparse writes the message to the error
    stream and exits with status 2.  (The usage line that precedes the
    message is left out.) *)
Definition parser_error {A : Type} (message : string) : M A :=
  eprint message ;;
  raise (SystemExit 2).

Definition invalid_choice (value : string) : string :=
  "argument --bench: invalid choice: '" +:+ value +:+ "'".

(** An option declared with [choices=] and [default="all"]: a value given
    on the command line must be one of the choices; the default is taken
    when the option is absent. *)
Definition bench_option (given : option string) (choices : list string)
  : M string :=
  match given with
  | None => ret "all"
  | Some value =>
      if bool_decide (value ∈ choices) then ret value
      else parser_error (invalid_choice value)
  end.

(** Lines 76-114.  The subparser's results are copied over the attributes
    that [Args()] initialised; attributes the subcommand does not declare
    keep their initial values. *)
Definition parse_args : M Args.t :=
  fun w =>
    match sys_argv w with
    | cli_run given native extra =>
        (do bench <- bench_option given
                       ("all" :: keys (CRITERION_BENCHES G));
         ret {| Args.command := "run"; Args.bench := bench;
                Args.native := native; Args.extra := extra |}) w
    | cli_dhat given extra =>
        (do bench <- bench_option given ("all" :: keys (DHAT_BENCHES G));
         ret {| Args.command := "dhat"; Args.bench := bench;
                Args.native := Args.native Args.init;
                Args.extra := extra |}) w
    | cli_list =>
        ret {| Args.command := "list"; Args.bench := Args.bench Args.init;
               Args.native := Args.native Args.init;
               Args.extra := Args.extra Args.init |} w
    | cli_malformed => parser_error "usage: bench.py [-h] {run,dhat,list} ..." w
    end.

(** Lines 117-120. *)
Definition benches_to_run (selected : string) (table : Registry)
  : Exn + list string :=
  if String.eqb selected "all" then inr (values table)
  else
    match getitem table selected with
    | Some target => inr [target]
    | None => inl (KeyError selected)
    end.

(** Lines 123-143. *)
Definition handle_run (args : RunArgs.t) : M Z :=
  do env <- os_environ_copy;
  let native := RunArgs.native args in
  let bench_choice := RunArgs.bench args in
  let extra := RunArgs.extra args in
  (if native then
     do old <- dict_get env "RUSTFLAGS" EmptyString;
     dict_setitem env "RUSTFLAGS" (old +:+ " -C target-cpu=native")
   else ret tt) ;;
  do benches <- lift (benches_to_run bench_choice (CRITERION_BENCHES G));
  match benches with
  | [] =>
      eprint "No criterion benches selected." ;;
      ret 1%Z
  | _ =>
      for_each benches
        (fun bench code =>
           let cmd := ["cargo"; "bench"; "--bench"; bench] ++ extra in
           print (LF +:+ "=== Running " +:+ bench +:+ " ===") ;;
           do rc <- subprocess_call cmd (Some env);
           ret (Z.lor code rc))
        0%Z
  end.

(** Lines 146-165. *)
Definition handle_dhat (args : DhatArgs.t) : M Z :=
  let bench_choice := DhatArgs.bench args in
  let extra := DhatArgs.extra args in
  do benches <- lift (benches_to_run bench_choice (DHAT_BENCHES G));
  match benches with
  | [] =>
      eprint "No dhat benches selected." ;;
      ret 1%Z
  | _ =>
      for_each benches
        (fun bench code =>
           let cmd := ["cargo"; "bench"; "--bench"; bench; "--"] in
           let cmd := match extra with
                      | [] => cmd ++ ["--profile"]
                      | _ => cmd
                      end in
           let cmd := cmd ++ extra in
           print (LF +:+ "=== Running " +:+ bench +:+ " ===") ;;
           do rc <- subprocess_call cmd None;
           ret (Z.lor code rc))
        0%Z
  end.

(** The line [handle_list] prints for one entry. *)
Definition list_line (item : string * string) : string :=
  "  " +:+ ljust 12 (fst item) +:+ " -> " +:+ snd item.

(** Lines 168-175. *)
Definition handle_list : M Z :=
  print "Criterion benches:" ;;
  for_each (items (CRITERION_BENCHES G))
    (fun item (_ : unit) => print (list_line item)) tt ;;
  print (LF +:+ "Dhat benches:") ;;
  for_each (items (DHAT_BENCHES G))
    (fun item (_ : unit) => print (list_line item)) tt ;;
  ret 0%Z.

(** Lines 178-196. *)
Definition main : M Z :=
  do args <- parse_args;
  let command := Args.command args in
  if String.eqb command "run" then
    handle_run {| RunArgs.bench := Args.bench args;
                  RunArgs.native := Args.native args;
                  RunArgs.extra := Args.extra args |}
  else if String.eqb command "dhat" then
    handle_dhat {| DhatArgs.bench := Args.bench args;
                   DhatArgs.extra := Args.extra args |}
  else if String.eqb command "list" then handle_list
  else ret 1%Z.

(** The last line of the traceback of an exception nobody caught. *)
Definition traceback (e : Exn) : string :=
  match e with
  | KeyError key => "KeyError: '" +:+ key +:+ "'"
  | OSError => "OSError"
  | SystemExit _ => EmptyString
  end.

(** Lines 199-200, [sys.exit(main())]: the status the process reports is
    the value [main] returns, as it is handed to [sys.exit]; [SystemExit]
    carries its own status; any other exception ends the interpreter with a
    traceback on the error stream and status 1. *)
Definition script (w : World) : Z * World :=
  match main w with
  | (Ok status, w') => (status, w')
  | (Raise (SystemExit status), w') => (status, w')
  | (Raise e, w') => (1%Z, snd (eprint (traceback e) w'))
  end.

End Script.

(** ** Reading a trace *)

(** The argument vectors of the child invocations, in the order they were
    made. *)
Fixpoint calls (events : list Event) : list (list string) :=
  match events with
  | [] => []
  | Call cmd _ _ :: rest => cmd :: calls rest
  | _ :: rest => calls rest
  end.

(** A world in which nothing has happened yet. *)
Definition boot (argv : CommandLine) (inherited : Env)
    (outcomes : nat -> Outcome) : World :=
  {| sys_argv := argv; environ := inherited; objects := [];
     children := outcomes; spawned := 0; trace := [] |}.

(** Children that exit with the listed codes, in order (and with 0 after the
    list is used up). *)
Definition exiting (codes : list Z) : nat -> Outcome :=
  fun n => Exited (nth n codes 0%Z).

(** The [env=] arguments and the environments the children received. *)
Fixpoint env_args (events : list Event) : list (option Ref) :=
  match events with
  | [] => []
  | Call _ env _ :: rest => env :: env_args rest
  | _ :: rest => env_args rest
  end.

Fixpoint child_envs (events : list Event) : list Env :=
  match events with
  | [] => []
  | Call _ _ child_env :: rest => child_env :: child_envs rest
  | _ :: rest => child_envs rest
  end.

(** The texts printed, on either stream. *)
Fixpoint texts (events : list Event) : list string :=
  match events with
  | [] => []
  | Stdout text :: rest | Stderr text :: rest => text :: texts rest
  | Call _ _ _ :: rest => texts rest
  end.

(** Was the argument vector of every call printed (as [run_cmd] renders it,
    within some line) before the call was made? *)
Fixpoint argv_announced (seen : list string) (events : list Event) : bool :=
  match events with
  | [] => true
  | Stdout text :: rest | Stderr text :: rest =>
      argv_announced (text :: seen) rest
  | Call cmd _ _ :: rest =>
      existsb (contains (join " " cmd)) seen && argv_announced seen rest
  end.

(** ** What the handlers are expected to build *)

(** The line printed before a target is run. *)
Definition banner (bench : string) : string :=
  LF +:+ "=== Running " +:+ bench +:+ " ===".

(** The argument vector for a criterion target. *)
Definition run_argv (extra : list string) (bench : string) : list string :=
  ["cargo"; "bench"; "--bench"; bench] ++ extra.

(** The arguments after the separator for a dhat target. *)
Definition dhat_trailing (extra : list string) : list string :=
  match extra with
  | [] => ["--profile"]
  | _ => extra
  end.

Definition dhat_argv (extra : list string) (bench : string) : list string :=
  ["cargo"; "bench"; "--bench"; bench; "--"] ++ dhat_trailing extra.

(** The environment a child of [run] is expected to receive. *)
Definition overlay (native : bool) (inherited : Env) : Env :=
  if native then
    <["RUSTFLAGS" :=
        default EmptyString (inherited !! "RUSTFLAGS") +:+ " -C target-cpu=native"]>
      inherited
  else inherited.

(** The world after [n] more children and some more events, the
    dictionaries as they were. *)
Definition advance (w : World) (n : nat) (events : list Event) : World :=
  {| sys_argv := sys_argv w; environ := environ w; objects := objects w;
     children := children w; spawned := spawned w + n;
     trace := trace w ++ events |}.

(** The world after [os.environ.copy()] and the assignment to
    [env["RUSTFLAGS"]] when [native] is set. *)
Definition prepared (native : bool) (w : World) : World :=
  {| sys_argv := sys_argv w; environ := environ w;
     objects := objects w ++ [overlay native (environ w)];
     children := children w; spawned := spawned w; trace := trace w |}.

(** A batch of [n] invocations, the next child being the [k]-th: the result
    of the loop and the number of children it spawned.  A child that cannot
    be launched ends the loop with [OSError]; a child that exits, with
    whatever code, does not. *)
Fixpoint batch (outcomes : nat -> Outcome) (k n : nat) (code : Z)
  : Result Z * nat :=
  match n with
  | O => (Ok code, O)
  | S n' =>
      match outcomes k with
      | Exited rc =>
          let (r, m) := batch outcomes (S k) n' (Z.lor code rc) in (r, S m)
      | LaunchFailed => (Raise OSError, 1)
      end
  end.

(** The children from the next one on exit with the given codes. *)
Definition exit_with (w : World) (codes : list Z) : Prop :=
  forall i rc, codes !! i = Some rc -> children w (spawned w + i) = Exited rc.

(** ** One pass of the loop of the handlers, and the events of a batch *)

Section Invocation.

Variable announce : string -> string.
Variable argv : string -> list string.
Variable env : option Ref.

Definition invocation (bench : string) (code : Z) : M Z :=
  print (announce bench) ;;
  do rc <- subprocess_call (argv bench) env;
  ret (Z.lor code rc).

Definition steps (child_env : Env) (benches : list string) : list Event :=
  flat_map (fun bench => [Stdout (announce bench);
                          Call (argv bench) env child_env]) benches.

End Invocation.

(** ** The two bench groups, side by side *)

Inductive BenchGroup : Type := Measurement | Profiling.

Definition registry (G : Globals) (g : BenchGroup) : Registry :=
  match g with
  | Measurement => CRITERION_BENCHES G
  | Profiling => DHAT_BENCHES G
  end.

(** The command line that selects a group. *)
Definition cli (g : BenchGroup) (given : option string) (native : bool)
    (extra : list string) : CommandLine :=
  match g with
  | Measurement => cli_run given native extra
  | Profiling => cli_dhat given extra
  end.

(** The handler of a group, on the arguments [main] would pass. *)
Definition handle (G : Globals) (g : BenchGroup) (selected : string)
    (native : bool) (extra : list string) : M Z :=
  match g with
  | Measurement =>
      handle_run G {| RunArgs.bench := selected; RunArgs.native := native;
                      RunArgs.extra := extra |}
  | Profiling =>
      handle_dhat G {| DhatArgs.bench := selected; DhatArgs.extra := extra |}
  end.

Definition argv_of (g : BenchGroup) (extra : list string)
  : string -> list string :=
  match g with
  | Measurement => run_argv extra
  | Profiling => dhat_argv extra
  end.

Definition empty_message (g : BenchGroup) : string :=
  match g with
  | Measurement => "No criterion benches selected."
  | Profiling => "No dhat benches selected."
  end.

(** The [env=] argument and the child environment of a group's calls, from
    the world the handler starts in. *)
Definition env_of (g : BenchGroup) (w : World) : option Ref :=
  match g with
  | Measurement => Some (obj (length (objects w)))
  | Profiling => None
  end.

Definition child_env_of (g : BenchGroup) (native : bool) (w : World) : Env :=
  match g with
  | Measurement => overlay native (environ w)
  | Profiling => environ w
  end.

(** The world when the loop of a group's handler starts. *)
Definition staged (g : BenchGroup) (native : bool) (w : World) : World :=
  match g with
  | Measurement => prepared native w
  | Profiling => w
  end.

(** Whether the command line sets [--native]. *)
Definition native_of (argv : CommandLine) : bool :=
  match argv with
  | cli_run _ native _ => native
  | _ => false
  end.

(** The events of [w'] that came after those of [w]. *)
Definition since (w w' : World) : list Event :=
  drop (length (trace w)) (trace w').

(** What [script] makes of the result of [main]: the status, and what the
    interpreter writes to the error stream. *)
Definition finish (r : Result Z) : Z * list Event :=
  match r with
  | Ok status => (status, [])
  | Raise (SystemExit status) => (status, [])
  | Raise e => (1%Z, [Stderr (traceback e)])
  end.

(** The same world with another command line. *)
Definition set_argv (argv : CommandLine) (w : World) : World :=
  {| sys_argv := argv; environ := environ w; objects := objects w;
     children := children w; spawned := spawned w; trace := trace w |}.

(** Children of which the [n]-th cannot be launched and the others exit
    with the listed codes (and with 0 after the list is used up). *)
Definition failing_at (n : nat) (codes : list Z) : nat -> Outcome :=
  fun i => if Nat.eqb i n then LaunchFailed else Exited (nth i codes 0%Z).

(** * Properties *)

(** ** The loop of the handlers *)

Lemma advance_0 w : advance w 0 [] = w.
Proof.
  destruct w; unfold advance; simpl.
  by rewrite Nat.add_0_r, app_nil_r.
Qed.

Lemma for_each_invocation announce argv env benches : forall code w,
  for_each benches (invocation announce argv env) code w =
    (fst (batch (children w) (spawned w) (length benches) code),
     let m := snd (batch (children w) (spawned w) (length benches) code) in
     advance w m (steps announce argv env (deref w (default os_environ env))
                    (firstn m benches))).
Proof.
  induction benches as [|bench rest IH]; intros code w.
  - simpl. unfold ret. by rewrite advance_0.
  - cbn [for_each length batch].
    unfold bind at 1. unfold invocation at 1.
    unfold bind, print, emit, subprocess_call, ret. cbn [spawned children].
    destruct (children w (spawned w)) as [rc|] eqn:Hout.
    + rewrite IH. cbn [children spawned].
      destruct (batch (children w) (S (spawned w)) (length rest)
                  (Z.lor code rc)) as [r m].
      cbn [fst snd]. f_equal.
      unfold advance, steps, deref. cbn.
      f_equal; [lia|]. by rewrite <- !app_assoc.
    + cbn [fst snd]. f_equal.
      unfold advance, steps, deref. cbn.
      f_equal; [lia|]. by rewrite <- !app_assoc.
Qed.

Lemma batch_spawned outcomes n : forall k code,
  snd (batch outcomes k n code) <= n.
Proof.
  induction n as [|n IH]; intros k code; simpl; [lia|].
  destruct (outcomes k) as [rc|]; simpl; [|lia].
  specialize (IH (S k) (Z.lor code rc)).
  destruct (batch outcomes (S k) n (Z.lor code rc)); simpl in *. lia.
Qed.

Lemma batch_attempt outcomes n k code :
  1 <= snd (batch outcomes k (S n) code).
Proof.
  simpl. destruct (outcomes k) as [rc|]; simpl; [|lia].
  destruct (batch outcomes (S k) n (Z.lor code rc)); simpl. lia.
Qed.

Lemma batch_exited outcomes codes : forall k code,
  (forall i rc, codes !! i = Some rc -> outcomes (k + i) = Exited rc) ->
  batch outcomes k (length codes) code
  = (Ok (fold_left Z.lor codes code), length codes).
Proof.
  induction codes as [|rc codes IH]; intros k code Hexit; simpl; [done|].
  pose proof (Hexit 0 rc eq_refl) as Hfirst.
  rewrite Nat.add_0_r in Hfirst. rewrite Hfirst.
  rewrite IH; [done|].
  intros i rc' Hi. replace (S k + i) with (k + S i) by lia. by apply Hexit.
Qed.

(** ** The handlers, as equations *)

Lemma emit_advance e w : emit e w = (Ok tt, advance w 0 [e]).
Proof. unfold emit, advance. by rewrite Nat.add_0_r. Qed.

Lemma deref_prepared native w :
  deref (prepared native w) (obj (length (objects w)))
  = overlay native (environ w).
Proof.
  unfold deref, prepared. cbn [objects].
  by rewrite list_lookup_middle.
Qed.

Lemma handle_run_eq G args w :
  handle_run G args w =
    let w1 := prepared (RunArgs.native args) w in
    match benches_to_run (RunArgs.bench args) (CRITERION_BENCHES G) with
    | inl e => (Raise e, w1)
    | inr [] => (Ok 1%Z, advance w1 0 [Stderr "No criterion benches selected."])
    | inr benches =>
        for_each benches
          (invocation banner (run_argv (RunArgs.extra args))
             (Some (obj (length (objects w))))) 0%Z w1
    end.
Proof.
  unfold handle_run. unfold bind at 1. unfold os_environ_copy.
  set (w0 := {| sys_argv := sys_argv w; environ := environ w;
                objects := objects w ++ [environ w];
                children := children w; spawned := spawned w;
                trace := trace w |}).
  unfold bind at 1.
  assert (Hprep :
    (if RunArgs.native args
     then do old <- dict_get (obj (length (objects w))) "RUSTFLAGS"
                    EmptyString;
          dict_setitem (obj (length (objects w))) "RUSTFLAGS"
            (old +:+ " -C target-cpu=native")
     else ret tt) w0 = (Ok tt, prepared (RunArgs.native args) w)).
  { destruct (RunArgs.native args).
    - unfold bind, dict_get, dict_setitem, prepared, overlay, deref, w0.
      cbn [objects environ sys_argv children spawned trace].
      rewrite list_lookup_middle by done. cbn [default].
      rewrite insert_app_r_alt by done.
      by rewrite Nat.sub_diag.
    - done. }
  rewrite Hprep. cbv zeta.
  unfold bind at 1, lift.
  destruct (benches_to_run (RunArgs.bench args) (CRITERION_BENCHES G))
    as [e|[|bench rest]]; [done| |done].
  unfold bind, eprint, ret. by rewrite emit_advance.
Qed.

Lemma handle_dhat_eq G args w :
  handle_dhat G args w =
    match benches_to_run (DhatArgs.bench args) (DHAT_BENCHES G) with
    | inl e => (Raise e, w)
    | inr [] => (Ok 1%Z, advance w 0 [Stderr "No dhat benches selected."])
    | inr benches =>
        for_each benches
          (invocation banner (dhat_argv (DhatArgs.extra args)) None) 0%Z w
    end.
Proof.
  unfold handle_dhat. cbv zeta. unfold bind at 1, lift.
  destruct (benches_to_run (DhatArgs.bench args) (DHAT_BENCHES G))
    as [e|[|bench rest]]; [done| |].
  - unfold bind, eprint, ret. by rewrite emit_advance.
  - unfold ret. f_equal.
    by destruct (DhatArgs.extra args).
Qed.

Lemma handle_run_batch G args w benches :
  benches_to_run (RunArgs.bench args) (CRITERION_BENCHES G) = inr benches ->
  benches <> [] ->
  handle_run G args w =
    (fst (batch (children w) (spawned w) (length benches) 0%Z),
     let m := snd (batch (children w) (spawned w) (length benches) 0%Z) in
     advance (prepared (RunArgs.native args) w) m
       (steps banner (run_argv (RunArgs.extra args))
          (Some (obj (length (objects w))))
          (overlay (RunArgs.native args) (environ w))
          (firstn m benches))).
Proof.
  intros Hsel Hne. rewrite handle_run_eq, Hsel. cbv zeta.
  destruct benches as [|bench rest]; [done|].
  rewrite for_each_invocation. cbn [default].
  by rewrite deref_prepared.
Qed.

Lemma handle_dhat_batch G args w benches :
  benches_to_run (DhatArgs.bench args) (DHAT_BENCHES G) = inr benches ->
  benches <> [] ->
  handle_dhat G args w =
    (fst (batch (children w) (spawned w) (length benches) 0%Z),
     let m := snd (batch (children w) (spawned w) (length benches) 0%Z) in
     advance w m
       (steps banner (dhat_argv (DhatArgs.extra args)) None (environ w)
          (firstn m benches))).
Proof.
  intros Hsel Hne. rewrite handle_dhat_eq, Hsel.
  destruct benches as [|bench rest]; [done|].
  by rewrite for_each_invocation.
Qed.

(** ** Selection *)

Lemma getitem_Some_key table key target :
  getitem table key = Some target -> key ∈ keys table.
Proof.
  induction table as [|[k v] rest IH]; simpl; [done|].
  destruct (String.eqb_spec k key) as [->|Hne]; intros Hget.
  - apply elem_of_cons. by left.
  - apply elem_of_cons. right. by apply IH.
Qed.

Lemma getitem_None_key table key :
  getitem table key = None -> key ∉ keys table.
Proof.
  induction table as [|[k v] rest IH]; simpl.
  - intros _. apply not_elem_of_nil.
  - destruct (String.eqb_spec k key) as [->|Hne]; [done|].
    intros Hget Hin. apply elem_of_cons in Hin as [Heq|Hin]; [done|].
    by apply IH.
Qed.

Lemma benches_to_run_choice selected table benches :
  benches_to_run selected table = inr benches ->
  selected ∈ "all" :: keys table.
Proof.
  unfold benches_to_run.
  destruct (String.eqb_spec selected "all") as [->|Hne].
  - intros _. apply elem_of_cons. by left.
  - destruct (getitem table selected) as [target|] eqn:Hget; [|done].
    intros _. apply elem_of_cons. right. by eapply getitem_Some_key.
Qed.

Lemma unregistered_choice selected table :
  selected <> "all" -> getitem table selected = None ->
  selected ∉ "all" :: keys table.
Proof.
  intros Hne Hget Hin. apply elem_of_cons in Hin as [Heq|Hin]; [done|].
  by apply (getitem_None_key table selected).
Qed.

(** ** The dispatcher, as equations *)

Lemma main_run G w given native extra benches :
  sys_argv w = cli_run given native extra ->
  benches_to_run (default "all" given) (CRITERION_BENCHES G) = inr benches ->
  main G w =
    handle_run G {| RunArgs.bench := default "all" given;
                    RunArgs.native := native; RunArgs.extra := extra |} w.
Proof.
  intros Hargv Hsel. unfold main, bind at 1, parse_args. rewrite Hargv.
  unfold bind at 1. destruct given as [value|]; cbn [bench_option default].
  - apply benches_to_run_choice in Hsel. cbn [default] in Hsel.
    by rewrite bool_decide_eq_true_2.
  - done.
Qed.

Lemma main_dhat G w given extra benches :
  sys_argv w = cli_dhat given extra ->
  benches_to_run (default "all" given) (DHAT_BENCHES G) = inr benches ->
  main G w =
    handle_dhat G {| DhatArgs.bench := default "all" given;
                     DhatArgs.extra := extra |} w.
Proof.
  intros Hargv Hsel. unfold main, bind at 1, parse_args. rewrite Hargv.
  unfold bind at 1. destruct given as [value|]; cbn [bench_option default].
  - apply benches_to_run_choice in Hsel. cbn [default] in Hsel.
    by rewrite bool_decide_eq_true_2.
  - done.
Qed.

Lemma main_run_rejected G w selected native extra :
  sys_argv w = cli_run (Some selected) native extra ->
  selected ∉ "all" :: keys (CRITERION_BENCHES G) ->
  main G w
  = (Raise (SystemExit 2), advance w 0 [Stderr (invalid_choice selected)]).
Proof.
  intros Hargv Hsel. unfold main, bind at 1, parse_args. rewrite Hargv.
  unfold bind at 1. cbn [bench_option].
  rewrite bool_decide_eq_false_2 by done.
  unfold parser_error, bind, eprint, raise. by rewrite emit_advance.
Qed.

Lemma main_dhat_rejected G w selected extra :
  sys_argv w = cli_dhat (Some selected) extra ->
  selected ∉ "all" :: keys (DHAT_BENCHES G) ->
  main G w
  = (Raise (SystemExit 2), advance w 0 [Stderr (invalid_choice selected)]).
Proof.
  intros Hargv Hsel. unfold main, bind at 1, parse_args. rewrite Hargv.
  unfold bind at 1. cbn [bench_option].
  rewrite bool_decide_eq_false_2 by done.
  unfold parser_error, bind, eprint, raise. by rewrite emit_advance.
Qed.

Lemma main_list G w :
  sys_argv w = cli_list -> main G w = handle_list G w.
Proof.
  intros Hargv. unfold main, bind at 1, parse_args. by rewrite Hargv.
Qed.

Lemma main_malformed G w :
  sys_argv w = cli_malformed ->
  main G w
  = (Raise (SystemExit 2),
     advance w 0 [Stderr "usage: bench.py [-h] {run,dhat,list} ..."]).
Proof.
  intros Hargv. unfold main, bind at 1, parse_args. rewrite Hargv.
  unfold parser_error, bind, eprint, raise. by rewrite emit_advance.
Qed.

(** ** Worlds *)

Lemma advance_advance w m n events events' :
  advance (advance w m events) n events'
  = advance w (m + n) (events ++ events').
Proof.
  unfold advance. cbn. f_equal; [lia|]. by rewrite app_assoc.
Qed.

Lemma since_advance w n events : since w (advance w n events) = events.
Proof. unfold since, advance. cbn. by rewrite drop_app_length. Qed.

Lemma since_staged g native w n events :
  since w (advance (staged g native w) n events) = events.
Proof. destruct g; unfold since, advance; cbn; by rewrite drop_app_length. Qed.

Lemma calls_app events events' :
  calls (events ++ events') = calls events ++ calls events'.
Proof.
  induction events as [|[text|text|cmd env child_env] rest IH]; cbn;
    by rewrite ?IH.
Qed.

Lemma calls_steps announce argv env child_env benches :
  calls (steps announce argv env child_env benches) = map argv benches.
Proof.
  unfold steps. induction benches as [|bench rest IH]; [done|].
  cbn. by rewrite IH.
Qed.

Lemma env_args_steps announce argv env child_env benches :
  env_args (steps announce argv env child_env benches)
  = map (fun _ => env) benches.
Proof.
  unfold steps. induction benches as [|bench rest IH]; [done|].
  cbn. by rewrite IH.
Qed.

Lemma child_envs_steps announce argv env child_env benches :
  child_envs (steps announce argv env child_env benches)
  = map (fun _ => child_env) benches.
Proof.
  unfold steps. induction benches as [|bench rest IH]; [done|].
  cbn. by rewrite IH.
Qed.

Lemma texts_steps announce argv env child_env benches :
  texts (steps announce argv env child_env benches) = map announce benches.
Proof.
  unfold steps. induction benches as [|bench rest IH]; [done|].
  cbn. by rewrite IH.
Qed.

(** ** The script, as equations *)

Lemma script_eq G w :
  script G w =
    (fst (finish (fst (main G w))),
     advance (snd (main G w)) 0 (snd (finish (fst (main G w))))).
Proof.
  unfold script.
  destruct (main G w) as [[status|[key| |status]] w']; cbn [fst snd finish];
    unfold eprint; rewrite ?emit_advance, ?advance_0; done.
Qed.

(** A handler whose selection resolves to at least one target. *)
Lemma handle_batch G g w selected native extra benches :
  benches_to_run selected (registry G g) = inr benches ->
  benches <> [] ->
  handle G g selected native extra w =
    (fst (batch (children w) (spawned w) (length benches) 0%Z),
     let m := snd (batch (children w) (spawned w) (length benches) 0%Z) in
     advance (staged g native w) m
       (steps banner (argv_of g extra) (env_of g w) (child_env_of g native w)
          (firstn m benches))).
Proof.
  intros Hsel Hne. destruct g; cbn [handle registry] in *.
  - by rewrite (handle_run_batch _ _ _ benches).
  - by rewrite (handle_dhat_batch _ _ _ benches).
Qed.

(** A handler whose selection resolves to no target. *)
Lemma handle_empty G g w selected native extra :
  benches_to_run selected (registry G g) = inr [] ->
  handle G g selected native extra w =
    (Ok 1%Z, advance (staged g native w) 0 [Stderr (empty_message g)]).
Proof.
  intros Hsel. destruct g; cbn [handle registry] in *.
  - by rewrite handle_run_eq; cbn; rewrite Hsel.
  - by rewrite handle_dhat_eq; cbn; rewrite Hsel.
Qed.

(** A handler whose selection is not registered. *)
Lemma handle_unregistered G g w selected native extra e :
  benches_to_run selected (registry G g) = inl e ->
  handle G g selected native extra w = (Raise e, staged g native w).
Proof.
  intros Hsel. destruct g; cbn [handle registry] in *.
  - by rewrite handle_run_eq; cbn; rewrite Hsel.
  - by rewrite handle_dhat_eq; cbn; rewrite Hsel.
Qed.

Lemma main_handle G g w given native extra benches :
  sys_argv w = cli g given native extra ->
  benches_to_run (default "all" given) (registry G g) = inr benches ->
  main G w = handle G g (default "all" given) native extra w.
Proof.
  intros Hargv Hsel. destruct g; cbn [cli registry handle] in *.
  - by apply (main_run _ _ _ _ _ benches).
  - by apply (main_dhat _ _ _ _ benches).
Qed.

Lemma main_rejected G g w selected native extra :
  sys_argv w = cli g (Some selected) native extra ->
  selected ∉ "all" :: keys (registry G g) ->
  main G w
  = (Raise (SystemExit 2), advance w 0 [Stderr (invalid_choice selected)]).
Proof.
  intros Hargv Hsel. destruct g; cbn [cli registry] in *.
  - by apply (main_run_rejected _ _ _ native extra).
  - by apply (main_dhat_rejected _ _ _ extra).
Qed.

(** The loop over the items of a table in [handle_list]. *)
Lemma for_each_print {A : Type} (line : A -> string) (xs : list A) :
  forall w,
    for_each xs (fun item (_ : unit) => print (line item)) tt w
    = (Ok tt, advance w 0 (map (fun item => Stdout (line item)) xs)).
Proof.
  induction xs as [|x rest IH]; intros w; cbn [for_each map].
  - unfold ret. by rewrite advance_0.
  - unfold bind, print. rewrite emit_advance, IH, advance_advance. done.
Qed.

Lemma handle_list_eq G w :
  handle_list G w =
    (Ok 0%Z,
     advance w 0
       (Stdout "Criterion benches:"
          :: map (fun item => Stdout (list_line item))
               (items (CRITERION_BENCHES G))
          ++ Stdout (LF +:+ "Dhat benches:")
          :: map (fun item => Stdout (list_line item))
               (items (DHAT_BENCHES G)))).
Proof.
  unfold handle_list. unfold bind at 1. unfold print at 1.
  rewrite emit_advance. unfold bind at 1. rewrite for_each_print.
  unfold bind at 1. unfold print at 1. rewrite emit_advance.
  unfold bind at 1. rewrite for_each_print. unfold ret.
  rewrite !advance_advance. cbn [Nat.add]. do 2 f_equal.
Qed.

Lemma batch_progress outcomes k code (benches : list string) :
  benches <> [] ->
  1 <= snd (batch outcomes k (length benches) code) <= length benches.
Proof.
  intros Hne. split; [|apply batch_spawned].
  destruct benches as [|bench rest]; [done|]. apply batch_attempt.
Qed.

Lemma calls_prints {A : Type} (line : A -> string) (xs : list A) :
  calls (map (fun item => Stdout (line item)) xs) = [].
Proof. by induction xs. Qed.

(** ** The environment *)

Lemma env_args_app events events' :
  env_args (events ++ events') = env_args events ++ env_args events'.
Proof.
  induction events as [|[text|text|cmd env child_env] rest IH]; cbn;
    by rewrite ?IH.
Qed.

Lemma child_envs_app events events' :
  child_envs (events ++ events') = child_envs events ++ child_envs events'.
Proof.
  induction events as [|[text|text|cmd env child_env] rest IH]; cbn;
    by rewrite ?IH.
Qed.

Lemma choice_resolves selected table :
  selected ∈ "all" :: keys table ->
  exists benches, benches_to_run selected table = inr benches.
Proof.
  intros Hin. unfold benches_to_run.
  destruct (String.eqb_spec selected "all") as [->|Hne]; [by eexists|].
  destruct (getitem table selected) as [target|] eqn:Hget; [by eexists|].
  exfalso. by apply (unregistered_choice selected table).
Qed.

(** What a run or dhat command leaves behind: the world it started in or
    the one its handler staged, then banners and calls for some targets,
    then at most one line on the error stream. *)
Lemma script_group G g w given native extra :
  sys_argv w = cli g given native extra ->
  exists (w0 : World) (n : nat) (done : list string) (tail : list Event),
    (w0 = w \/ w0 = staged g native w)
    /\ (tail = [] \/ exists text, tail = [Stderr text])
    /\ snd (script G w)
       = advance w0 n
           (steps banner (argv_of g extra) (env_of g w)
              (child_env_of g native w) done ++ tail).
Proof.
  intros Hargv. rewrite script_eq.
  destruct (decide (default "all" given ∈ "all" :: keys (registry G g)))
    as [Hin|Hout].
  - destruct (choice_resolves _ _ Hin) as [benches Hsel].
    rewrite (main_handle G g w given native extra benches Hargv Hsel).
    destruct (decide (benches = [])) as [->|Hne].
    + rewrite (handle_empty G g w _ native extra Hsel).
      cbn [fst snd finish]. rewrite advance_advance.
      exists (staged g native w), (0 + 0), [], [Stderr (empty_message g)].
      split; [by right|]. split; [by right; eexists|]. done.
    + rewrite (handle_batch G g w _ native extra benches Hsel Hne).
      cbn [fst snd]. rewrite advance_advance.
      eexists (staged g native w), _, _, _.
      split; [by right|]. split; [|reflexivity].
      destruct (fst (batch (children w) (spawned w) (length benches) 0%Z))
        as [status|[key| |status]]; cbn; eauto.
  - destruct given as [selected|]; cbn [default] in Hout.
    + rewrite (main_rejected G g w selected native extra Hargv Hout).
      cbn [fst snd finish]. rewrite advance_advance.
      exists w, (0 + 0), [], [Stderr (invalid_choice selected)].
      split; [by left|]. split; [by right; eexists|]. done.
    + exfalso. apply Hout, elem_of_cons. by left.
Qed.

Lemma env_args_prints {A : Type} (line : A -> string) (xs : list A) :
  env_args (map (fun item => Stdout (line item)) xs) = [].
Proof. by induction xs. Qed.

Lemma child_envs_prints {A : Type} (line : A -> string) (xs : list A) :
  child_envs (map (fun item => Stdout (line item)) xs) = [].
Proof. by induction xs. Qed.

Lemma Forall_const {A B : Type} (P : B -> Prop) (b : B) (xs : list A) :
  P b -> Forall P (map (fun _ => b) xs).
Proof. intros Hb. induction xs; constructor; done. Qed.

(** The environment after a run or dhat command, and the environments its
    children received. *)
Lemma script_group_env G g w given native extra :
  sys_argv w = cli g given native extra ->
  let w' := snd (script G w) in
  environ w' = environ w
  /\ (objects w' = objects w
      \/ objects w' = objects w ++ [child_env_of g native w])
  /\ Forall (fun env => env = env_of g w) (env_args (since w w'))
  /\ Forall (fun child_env => child_env = child_env_of g native w)
       (child_envs (since w w')).
Proof.
  intros Hargv w'. subst w'.
  destruct (script_group G g w given native extra Hargv)
    as (w0 & n & done & tail & Hw0 & Htail & ->).
  assert (Hsince : since w (advance w0 n
                     (steps banner (argv_of g extra) (env_of g w)
                        (child_env_of g native w) done ++ tail))
                   = steps banner (argv_of g extra) (env_of g w)
                       (child_env_of g native w) done ++ tail).
  { destruct Hw0 as [->| ->]; [apply since_advance|apply since_staged]. }
  rewrite Hsince, env_args_app, child_envs_app.
  rewrite env_args_steps, child_envs_steps.
  assert (Hquiet : env_args tail = [] /\ child_envs tail = []).
  { by destruct Htail as [->|[text ->]]. }
  destruct Hquiet as [-> ->]. rewrite !app_nil_r.
  split; [by destruct Hw0 as [->| ->]; destruct g|].
  split; [|split; by apply Forall_const].
  destruct Hw0 as [->| ->]; [by left|].
  destruct g; cbn; [by right|by left].
Qed.

(** ** The tables as written, and the helper [run_cmd] *)

Lemma bench_py_wf :
  dict_wf (CRITERION_BENCHES bench_py) /\ dict_wf (DHAT_BENCHES bench_py).
Proof.
  unfold dict_wf. split; cbn; repeat (apply NoDup_cons; split);
    try apply NoDup_nil_2; intros Hin;
    repeat (apply elem_of_cons in Hin as [Hin|Hin]; [discriminate Hin|]);
    by apply elem_of_nil in Hin.
Qed.

Lemma prefix_refl s : String.prefix s s = true.
Proof.
  induction s as [|c s IH]; [done|]. cbn. by destruct (ascii_dec c c).
Qed.

Lemma contains_suffix needle before :
  contains needle (before +:+ needle) = true.
Proof.
  induction before as [|c before IH].
  - change (contains needle needle = true).
    destruct needle as [|c needle]; [done|].
    cbn [contains]. by rewrite prefix_refl.
  - change (contains needle (String c (before +:+ needle)) = true).
    cbn [contains]. rewrite IH. apply orb_true_r.
Qed.

Lemma run_cmd_eq cmd w :
  run_cmd cmd w =
    (match children w (spawned w) with
     | Exited rc => Ok rc
     | LaunchFailed => Raise OSError
     end,
     advance w 1 [Stdout ("+ " +:+ join " " cmd); Call cmd None (environ w)]).
Proof.
  unfold run_cmd, bind, print, emit, subprocess_call, advance. cbn.
  destruct (children w (spawned w)); cbn;
    by rewrite Nat.add_1_r, <- app_assoc.
Qed.

(** [run_cmd], which neither handler calls, does print the argument vector
    before it makes the call. *)
Lemma run_cmd_announces cmd w :
  argv_announced [] (since w (snd (run_cmd cmd w))) = true.
Proof.
  rewrite run_cmd_eq. cbn [snd]. rewrite since_advance.
  cbn [argv_announced existsb]. by rewrite contains_suffix.
Qed.

(** * The claims *)

(** C1: when the selection of a run or dhat command resolves to a
    non-empty list of targets and every child exits, with whatever code,
    then one child is spawned per target, in list order, each with the
    argument vector of its target; none is skipped after a non-zero code;
    and the status of the process is the bitwise OR of all the codes. *)
Theorem C1_status_is_or_of_all_exit_codes :
  forall (G : Globals) (g : BenchGroup) (w : World) (given : option string)
         (native : bool) (extra : list string) (benches : list string)
         (codes : list Z),
    sys_argv w = cli g given native extra ->
    benches_to_run (default "all" given) (registry G g) = inr benches ->
    benches <> [] ->
    length codes = length benches ->
    exit_with w codes ->
    fst (script G w) = fold_left Z.lor codes 0%Z
    /\ calls (since w (snd (script G w))) = map (argv_of g extra) benches
    /\ spawned (snd (script G w)) = spawned w + length benches.
Proof.
  intros G g w given native extra benches codes Hargv Hsel Hne Hlen Hexit.
  rewrite script_eq, (main_handle G g w given native extra benches Hargv Hsel).
  rewrite (handle_batch G g w _ native extra benches Hsel Hne).
  rewrite <- Hlen, (batch_exited (children w) codes (spawned w) 0%Z Hexit).
  cbn [fst snd finish]. rewrite advance_advance, since_staged, app_nil_r.
  rewrite Hlen, firstn_all, calls_steps.
  repeat split. destruct g; cbn; lia.
Qed.

Lemma C1_witness :
  let w := boot (cli_run None false []) ∅ (exiting [0; 1; 0]%Z) in
  let w' := boot (cli_dhat None []) ∅ (exiting [0; 0; 0]%Z) in
  (fst (script bench_py w) = 1%Z
   /\ calls (since w (snd (script bench_py w)))
      = [ ["cargo"; "bench"; "--bench"; "criterion_pipeline"];
          ["cargo"; "bench"; "--bench"; "criterion_transformers"];
          ["cargo"; "bench"; "--bench"; "criterion_io"] ]
   /\ spawned (snd (script bench_py w)) = 3)
  /\ (fst (script bench_py w') = 0%Z
      /\ calls (since w' (snd (script bench_py w')))
         = [ ["cargo"; "bench"; "--bench"; "dhat_build"; "--"; "--profile"];
             ["cargo"; "bench"; "--bench"; "dhat_transformers"; "--";
              "--profile"];
             ["cargo"; "bench"; "--bench"; "dhat_compress"; "--";
              "--profile"] ]
      /\ spawned (snd (script bench_py w')) = 3).
Proof.
  intros w w'. split.
  - apply (C1_status_is_or_of_all_exit_codes bench_py Measurement w None
             false [] (values (CRITERION_BENCHES bench_py)) [0; 1; 0]%Z);
      try reflexivity; try discriminate.
    intros [|[|[|i]]] rc Hi; cbn in Hi; inversion Hi; reflexivity.
  - apply (C1_status_is_or_of_all_exit_codes bench_py Profiling w' None
             false [] (values (DHAT_BENCHES bench_py)) [0; 0; 0]%Z);
      try reflexivity; try discriminate.
    intros [|[|[|i]]] rc Hi; cbn in Hi; inversion Hi; reflexivity.
Defined.

(** C2 (as the code has it): a selection that is neither "all" nor a
    registered key never reaches the selector when it comes from the
    command line: argparse rejects it against the declared choices, writes
    its message to the error stream and the process exits with status 2,
    that message being the only event, so no child is spawned.  The
    selector itself, and the handler given such a selection, raise
    [KeyError] for the key, again without any event and without spawning. *)
Theorem C2_unregistered_selection_rejected :
  forall (G : Globals) (g : BenchGroup) (w : World) (selected : string)
         (native : bool) (extra : list string),
    selected <> "all" ->
    getitem (registry G g) selected = None ->
    sys_argv w = cli g (Some selected) native extra ->
    script G w = (2%Z, advance w 0 [Stderr (invalid_choice selected)])
    /\ benches_to_run selected (registry G g) = inl (KeyError selected)
    /\ fst (handle G g selected native extra w) = Raise (KeyError selected)
    /\ trace (snd (handle G g selected native extra w)) = trace w
    /\ spawned (snd (handle G g selected native extra w)) = spawned w.
Proof.
  intros G g w selected native extra Hne Hget Hargv.
  assert (Hsel : benches_to_run selected (registry G g)
                 = inl (KeyError selected)).
  { unfold benches_to_run. rewrite Hget.
    by destruct (String.eqb_spec selected "all"). }
  split; [|split; [done|]].
  - rewrite script_eq, (main_rejected G g w selected native extra); [|done|].
    + cbn [fst snd finish]. by rewrite advance_advance.
    + by apply unregistered_choice.
  - rewrite (handle_unregistered G g w selected native extra _ Hsel).
    by destruct g.
Qed.

Lemma C2_witness :
  let w := boot (cli_run (Some "nope") false []) ∅ (exiting []) in
  "nope" <> "all"
  /\ getitem (registry bench_py Measurement) "nope" = None
  /\ sys_argv w = cli Measurement (Some "nope") false []
  /\ script bench_py w = (2%Z, advance w 0 [Stderr (invalid_choice "nope")]).
Proof.
  intros w.
  split; [discriminate|]. split; [reflexivity|]. split; [reflexivity|].
  apply (C2_unregistered_selection_rejected
           bench_py Measurement w "nope" false []).
  - discriminate.
  - reflexivity.
  - reflexivity.
Defined.

(** C2 as stated fails: for the selection "nope", neither "all" nor a key of
    the criterion table, the process exits with status 2, not 1. *)
Lemma C2_counterexample :
  "nope" <> "all"
  /\ getitem (CRITERION_BENCHES bench_py) "nope" = None
  /\ fst (script bench_py
            (boot (cli_run (Some "nope") false []) ∅ (exiting [])))
     = 2%Z
  /\ ~ fst (script bench_py
              (boot (cli_run (Some "nope") false []) ∅ (exiting [])))
       = 1%Z.
Proof.
  split; [discriminate|]. split; [reflexivity|].
  split; [reflexivity|]. discriminate.
Qed.

(** C3: when the selection of a dhat command resolves to a non-empty list
    of targets, the handler makes at least one call, for the targets in
    order, and the argument vector of every call is [cargo bench --bench
    <target> --] followed by exactly ["--profile"] when no extra argument
    was supplied, and by exactly the supplied extra arguments, in order and
    with nothing added, when there is at least one. *)
Theorem C3_profile_flag_or_extras :
  forall (G : Globals) (args : DhatArgs.t) (w : World)
         (benches : list string),
    benches_to_run (DhatArgs.bench args) (DHAT_BENCHES G) = inr benches ->
    benches <> [] ->
    let w' := snd (handle_dhat G args w) in
    let m := spawned w' - spawned w in
    1 <= m <= length benches
    /\ ((DhatArgs.extra args = []
         /\ calls (since w w')
            = map (fun bench =>
                     ["cargo"; "bench"; "--bench"; bench; "--"]
                       ++ ["--profile"])
                (take m benches))
        \/ (DhatArgs.extra args <> []
            /\ calls (since w w')
               = map (fun bench =>
                        ["cargo"; "bench"; "--bench"; bench; "--"]
                          ++ DhatArgs.extra args)
                   (take m benches))).
Proof.
  intros G args w benches Hsel Hne.
  rewrite (handle_dhat_batch G args w benches Hsel Hne). cbn [snd].
  pose proof (batch_progress (children w) (spawned w) 0%Z benches Hne)
    as Hm.
  set (m := snd (batch (children w) (spawned w) (length benches) 0%Z)) in *.
  rewrite since_advance, calls_steps. cbn [advance spawned].
  replace (spawned w + m - spawned w) with m by lia.
  split; [done|].
  destruct (DhatArgs.extra args) as [|arg rest] eqn:Hextra.
  - left. done.
  - right. done.
Qed.

Lemma C3_witness :
  let G := {| CRITERION_BENCHES := [];
              DHAT_BENCHES := [("build", "dhat_build");
                               ("compress", "dhat_compress")] |} in
  let w := boot (cli_dhat None []) ∅ (exiting [0; 0]%Z) in
  let quiet := {| DhatArgs.bench := "all"; DhatArgs.extra := [] |} in
  let given := {| DhatArgs.bench := "build"; DhatArgs.extra := ["--x"] |} in
  calls (since w (snd (handle_dhat G quiet w)))
  = [ ["cargo"; "bench"; "--bench"; "dhat_build"; "--"; "--profile"];
      ["cargo"; "bench"; "--bench"; "dhat_compress"; "--"; "--profile"] ]
  /\ calls (since w (snd (handle_dhat G given w)))
     = [ ["cargo"; "bench"; "--bench"; "dhat_build"; "--"; "--x"] ].
Proof.
  intros G w quiet given. split.
  - destruct (C3_profile_flag_or_extras G quiet w
                ["dhat_build"; "dhat_compress"]) as [_ [[_ H]|[H _]]];
      [reflexivity|discriminate|exact H|exfalso; apply H; reflexivity].
  - destruct (C3_profile_flag_or_extras G given w ["dhat_build"])
      as [_ [[H _]|[_ H]]];
      [reflexivity|discriminate|discriminate H|exact H].
Defined.

(** C4: when the native flag of a run command is set and its selection
    resolves to a non-empty list of targets, the handler makes at least one
    call and every child receives the inherited environment with
    [RUSTFLAGS] set to its inherited value, the empty string when it was
    absent, followed by [" -C target-cpu=native"]; every other variable is
    as inherited. *)
Theorem C4_native_appends_to_rustflags :
  forall (G : Globals) (args : RunArgs.t) (w : World)
         (benches : list string),
    RunArgs.native args = true ->
    benches_to_run (RunArgs.bench args) (CRITERION_BENCHES G) = inr benches ->
    benches <> [] ->
    let w' := snd (handle_run G args w) in
    1 <= length (child_envs (since w w'))
    /\ Forall
         (fun child_env : Env =>
            child_env
            = <["RUSTFLAGS" :=
                  default EmptyString (environ w !! "RUSTFLAGS")
                    +:+ " -C target-cpu=native"]> (environ w))
         (child_envs (since w w')).
Proof.
  intros G args w benches Hnative Hsel Hne.
  rewrite (handle_run_batch G args w benches Hsel Hne). cbn [snd].
  pose proof (batch_progress (children w) (spawned w) 0%Z benches Hne)
    as Hm.
  set (m := snd (batch (children w) (spawned w) (length benches) 0%Z)) in *.
  rewrite (since_staged Measurement), child_envs_steps, Hnative.
  rewrite length_map, length_take. split; [lia|].
  apply Forall_forall. intros child_env Hin.
  apply list_elem_of_In, in_map_iff in Hin as [bench [<- _]]. done.
Qed.

Lemma C4_witness :
  let args := {| RunArgs.bench := "pipeline"; RunArgs.native := true;
                 RunArgs.extra := [] |} in
  let w := boot (cli_run (Some "pipeline") true [])
             {[ "RUSTFLAGS" := "-Z foo"; "HOME" := "/root" ]}
             (exiting [0%Z]) in
  RunArgs.native args = true
  /\ benches_to_run (RunArgs.bench args) (CRITERION_BENCHES bench_py)
     = inr ["criterion_pipeline"]
  /\ 1 <= length (child_envs (since w (snd (handle_run bench_py args w))))
  /\ Forall
       (fun child_env : Env =>
          child_env
          = {[ "RUSTFLAGS" := "-Z foo -C target-cpu=native";
               "HOME" := "/root" ]})
       (child_envs (since w (snd (handle_run bench_py args w)))).
Proof.
  intros args w. split; [reflexivity|]. split; [reflexivity|].
  destruct (C4_native_appends_to_rustflags bench_py args w
              ["criterion_pipeline"]) as [Hlen Hall];
    [reflexivity|reflexivity|discriminate|].
  split; [exact Hlen|].
  eapply Forall_impl; [exact Hall|].
  intros child_env ->. vm_compute. reflexivity.
Defined.

(** C5: for every registry, resolving the sentinel selection "all" returns
    the target identifiers of all its entries in declaration order, and the
    result is as long as the registry; for the two tables of the script
    these are the three criterion targets and the three dhat targets as
    they are declared. *)
Theorem C5_all_resolves_in_declaration_order : forall table : Registry,
  benches_to_run "all" table = inr (map snd (items table))
  /\ length (map snd (items table)) = length (items table)
  /\ benches_to_run "all" (CRITERION_BENCHES bench_py)
     = inr ["criterion_pipeline"; "criterion_transformers"; "criterion_io"]
  /\ benches_to_run "all" (DHAT_BENCHES bench_py)
     = inr ["dhat_build"; "dhat_transformers"; "dhat_compress"].
Proof.
  intros table. repeat split.
  apply length_map.
Qed.

(** C6: when the selection of a run or dhat command resolves to no target,
    the process reports the group's message on the error stream, which is
    the only event, exits with status 1, and spawns no child. *)
Theorem C6_empty_selection_is_an_error :
  forall (G : Globals) (g : BenchGroup) (w : World) (given : option string)
         (native : bool) (extra : list string),
    sys_argv w = cli g given native extra ->
    benches_to_run (default "all" given) (registry G g) = inr [] ->
    fst (script G w) = 1%Z
    /\ since w (snd (script G w)) = [Stderr (empty_message g)]
    /\ calls (since w (snd (script G w))) = []
    /\ spawned (snd (script G w)) = spawned w.
Proof.
  intros G g w given native extra Hargv Hsel.
  rewrite script_eq, (main_handle G g w given native extra [] Hargv Hsel).
  rewrite (handle_empty G g w _ native extra Hsel).
  cbn [fst snd finish]. rewrite advance_advance, since_staged.
  repeat split. destruct g; cbn; lia.
Qed.

Lemma C6_witness :
  let G := {| CRITERION_BENCHES := []; DHAT_BENCHES := [] |} in
  let w := boot (cli_run None true ["--baseline"]) ∅ (exiting [7%Z]) in
  sys_argv w = cli Measurement None true ["--baseline"]
  /\ benches_to_run (default "all" None) (registry G Measurement) = inr []
  /\ fst (script G w) = 1%Z
  /\ since w (snd (script G w)) = [Stderr "No criterion benches selected."]
  /\ calls (since w (snd (script G w))) = []
  /\ spawned (snd (script G w)) = spawned w.
Proof.
  intros G w.
  split; [reflexivity|]. split; [reflexivity|].
  apply (C6_empty_selection_is_an_error G Measurement w None true
           ["--baseline"]); reflexivity.
Defined.

(** C7: resolving a registered key returns exactly one element, the target
    registered for that key.  This holds for every key of the two tables of
    the script, and for every table whatsoever as long as the key is not
    the sentinel "all" (which [benches_to_run] tests first). *)
Theorem C7_registered_key_resolves_to_its_target :
  forall (table : Registry) (key target : string),
    key <> "all"
    \/ table = CRITERION_BENCHES bench_py
    \/ table = DHAT_BENCHES bench_py ->
    getitem table key = Some target ->
    benches_to_run key table = inr [target].
Proof.
  intros table key target Hkey Hget. unfold benches_to_run.
  destruct (String.eqb_spec key "all") as [->|Hne].
  - destruct Hkey as [Hkey|[->| ->]]; [done| |]; discriminate Hget.
  - by rewrite Hget.
Qed.

Lemma C7_witness :
  ("io" <> "all"
   \/ CRITERION_BENCHES bench_py = CRITERION_BENCHES bench_py
   \/ CRITERION_BENCHES bench_py = DHAT_BENCHES bench_py)
  /\ getitem (CRITERION_BENCHES bench_py) "io" = Some "criterion_io"
  /\ benches_to_run "io" (CRITERION_BENCHES bench_py) = inr ["criterion_io"].
Proof.
  split; [right; left; reflexivity|].
  split; [reflexivity|].
  apply (C7_registered_key_resolves_to_its_target
           (CRITERION_BENCHES bench_py) "io" "criterion_io").
  - right. left. reflexivity.
  - reflexivity.
Defined.

(** C8: the list command exits with status 0 and spawns no child; what it
    prints is the heading of the criterion table, one line [key -> target]
    for each of its entries in order, then the heading of the dhat table
    and one line for each of its entries in order. *)
Theorem C8_list_enumerates_both_registries :
  forall (G : Globals) (w : World),
    sys_argv w = cli_list ->
    fst (script G w) = 0%Z
    /\ since w (snd (script G w))
       = Stdout "Criterion benches:"
           :: map (fun item =>
                     Stdout ("  " +:+ ljust 12 (fst item) +:+ " -> "
                               +:+ snd item))
                (items (CRITERION_BENCHES G))
           ++ Stdout (LF +:+ "Dhat benches:")
           :: map (fun item =>
                     Stdout ("  " +:+ ljust 12 (fst item) +:+ " -> "
                               +:+ snd item))
                (items (DHAT_BENCHES G))
    /\ calls (since w (snd (script G w))) = []
    /\ spawned (snd (script G w)) = spawned w.
Proof.
  intros G w Hargv.
  rewrite script_eq, (main_list G w Hargv), handle_list_eq.
  cbn [fst snd finish]. rewrite advance_advance, since_advance, app_nil_r.
  split; [done|]. split; [done|]. split.
  - cbn [calls]. rewrite calls_app. cbn [calls].
    unfold list_line. by rewrite !calls_prints.
  - cbn. lia.
Qed.

Lemma C8_witness :
  let w := boot cli_list ∅ (exiting []) in
  sys_argv w = cli_list
  /\ fst (script bench_py w) = 0%Z
  /\ since w (snd (script bench_py w))
     = [ Stdout "Criterion benches:";
         Stdout "  pipeline     -> criterion_pipeline";
         Stdout "  transformers -> criterion_transformers";
         Stdout "  io           -> criterion_io";
         Stdout (LF +:+ "Dhat benches:");
         Stdout "  build        -> dhat_build";
         Stdout "  transformers -> dhat_transformers";
         Stdout "  compress     -> dhat_compress" ]
  /\ calls (since w (snd (script bench_py w))) = []
  /\ spawned (snd (script bench_py w)) = spawned w.
Proof.
  intros w. split; [reflexivity|].
  apply (C8_list_enumerates_both_registries bench_py w). reflexivity.
Defined.

(** C9 (as the code has it): when the selection of a run or dhat command
    resolves to a non-empty list of targets, the handler makes at least one
    call, and what it does is, for the targets in order, to print the banner
    ["\n=== Running <target> ==="] and then to make the call for that
    target: every call comes right after the banner that names its target.
    The banners are all the handler prints; the argument vector of a call
    is not printed. *)
Theorem C9_banner_before_each_call :
  forall (G : Globals) (g : BenchGroup) (w : World) (selected : string)
         (native : bool) (extra : list string) (benches : list string),
    benches_to_run selected (registry G g) = inr benches ->
    benches <> [] ->
    let w' := snd (handle G g selected native extra w) in
    let m := spawned w' - spawned w in
    1 <= m <= length benches
    /\ since w w'
       = flat_map
           (fun bench =>
              [ Stdout (LF +:+ "=== Running " +:+ bench +:+ " ===");
                Call (argv_of g extra bench) (env_of g w)
                  (child_env_of g native w) ])
           (take m benches)
    /\ texts (since w w')
       = map (fun bench => LF +:+ "=== Running " +:+ bench +:+ " ===")
           (take m benches).
Proof.
  intros G g w selected native extra benches Hsel Hne.
  rewrite (handle_batch G g w selected native extra benches Hsel Hne).
  cbn [snd].
  pose proof (batch_progress (children w) (spawned w) 0%Z benches Hne)
    as Hm.
  set (m := snd (batch (children w) (spawned w) (length benches) 0%Z)) in *.
  rewrite since_staged, texts_steps.
  replace (spawned (advance (staged g native w) m _) - spawned w) with m
    by (destruct g; cbn; lia).
  done.
Qed.

Lemma C9_witness :
  let w := boot (cli_run (Some "io") false ["--"; "--baseline"; "main"]) ∅
             (exiting [0%Z]) in
  let w' := snd (handle bench_py Measurement "io" false
                   ["--"; "--baseline"; "main"] w) in
  benches_to_run "io" (registry bench_py Measurement) = inr ["criterion_io"]
  /\ since w w'
     = [ Stdout (LF +:+ "=== Running criterion_io ===");
         Call ["cargo"; "bench"; "--bench"; "criterion_io"; "--";
               "--baseline"; "main"] (Some (obj 0)) ∅ ]
  /\ texts (since w w') = [LF +:+ "=== Running criterion_io ==="].
Proof.
  intros w w'. split; [reflexivity|].
  destruct (C9_banner_before_each_call bench_py Measurement w "io" false
              ["--"; "--baseline"; "main"] ["criterion_io"])
    as (_ & Hsince & Htexts); [reflexivity|discriminate|].
  split; [exact Hsince|exact Htexts].
Defined.

(** C9 as stated fails: [bench.py run --bench io -- --baseline main], for
    which argparse leaves the remainder [-- --baseline main], makes the call
    [cargo bench --bench criterion_io -- --baseline main], and nothing
    printed before it (nor after) contains that argument vector, nor even
    its argument [--baseline]: the only line printed is the banner. *)
Lemma C9_counterexample :
  let w' := snd (script bench_py
                   (boot (cli_run (Some "io") false
                            ["--"; "--baseline"; "main"])
                      ∅ (exiting [0%Z]))) in
  calls (trace w')
  = [ ["cargo"; "bench"; "--bench"; "criterion_io"; "--"; "--baseline";
       "main"] ]
  /\ texts (trace w') = [LF +:+ "=== Running criterion_io ==="]
  /\ argv_announced [] (trace w') = false
  /\ existsb (contains "--baseline") (texts (trace w')) = false.
Proof. repeat split. Qed.

(** C10 (as the code has it): no command changes the environment of the
    process.  A run command makes one copy of [os.environ] for the whole
    command, a new dict and not [os.environ] itself, applies the overlay to
    that copy once, before the first call, and passes that same dict to
    every call, so every child receives the inherited environment with the
    overlay applied exactly once; no other dict is allocated.  A dhat
    command passes no environment and its children inherit the process
    environment as it is; list and a rejected command line spawn nothing. *)
Theorem C10_environment_copied_once_per_command :
  forall (G : Globals) (w : World),
    let w' := snd (script G w) in
    let expected := overlay (native_of (sys_argv w)) (environ w) in
    environ w' = environ w
    /\ (objects w' = objects w \/ objects w' = objects w ++ [expected])
    /\ Forall
         (fun env : option Ref =>
            env = match sys_argv w with
                  | cli_run _ _ _ => Some (obj (length (objects w)))
                  | _ => None
                  end)
         (env_args (since w w'))
    /\ Forall (fun child_env : Env => child_env = expected)
         (child_envs (since w w')).
Proof.
  intros G w. cbv zeta.
  destruct (sys_argv w) as [given native extra|given extra| |] eqn:Hargv.
  - apply (script_group_env G Measurement w given native extra Hargv).
  - apply (script_group_env G Profiling w given false extra Hargv).
  - rewrite script_eq, (main_list G w Hargv), handle_list_eq.
    cbn [fst snd finish native_of overlay].
    rewrite advance_advance, since_advance, app_nil_r.
    split; [done|]. split; [by left|].
    cbn [env_args child_envs]. rewrite env_args_app, child_envs_app.
    cbn [env_args child_envs].
    by rewrite !env_args_prints, !child_envs_prints.
  - rewrite script_eq, (main_malformed G w Hargv).
    cbn [fst snd finish native_of overlay].
    rewrite advance_advance, since_advance.
    split; [done|]. split; [by left|]. by split.
Qed.

Lemma C10_witness :
  let w := boot (cli_run None true []) {[ "RUSTFLAGS" := "-Z foo" ]}
             (exiting [0; 3; 0]%Z) in
  let w' := snd (script bench_py w) in
  environ w' = {[ "RUSTFLAGS" := "-Z foo" ]}
  /\ objects w' = [ {[ "RUSTFLAGS" := "-Z foo -C target-cpu=native" ]} ]
  /\ env_args (since w w') = [Some (obj 0); Some (obj 0); Some (obj 0)]
  /\ Forall
       (fun child_env : Env =>
          child_env = {[ "RUSTFLAGS" := "-Z foo -C target-cpu=native" ]})
       (child_envs (since w w')).
Proof.
  intros w w'.
  destruct (C10_environment_copied_once_per_command bench_py w)
    as (Henviron & _ & _ & Hall).
  split; [exact Henviron|]. split; [vm_compute; reflexivity|].
  split; [vm_compute; reflexivity|].
  eapply Forall_impl; [exact Hall|].
  intros child_env ->. vm_compute. reflexivity.
Defined.

(** C10 as stated fails: [bench.py run --native] spawns three children but
    copies the environment once, not once per invocation, and the three
    calls are given one and the same dict. *)
Lemma C10_counterexample :
  let w' := snd (script bench_py
                   (boot (cli_run None true [])
                      {[ "RUSTFLAGS" := "-Z foo" ]} (exiting []))) in
  length (calls (trace w')) = 3
  /\ length (objects w') = 1
  /\ env_args (trace w') = [Some (obj 0); Some (obj 0); Some (obj 0)]
  /\ ~ NoDup (env_args (trace w')).
Proof.
  cbv zeta. split; [reflexivity|]. split; [reflexivity|].
  split; [reflexivity|].
  intros Hnodup. vm_compute in Hnodup.
  apply NoDup_cons in Hnodup as [Hnotin _].
  apply Hnotin, elem_of_cons. by left.
Qed.

(** * Further properties of the script *)

(** ** Batches *)

Lemma batch_raises outcomes n : forall k code e,
  fst (batch outcomes k n code) = Raise e -> e = OSError.
Proof.
  induction n as [|n IH]; intros k code e; simpl; [done|].
  destruct (outcomes k) as [rc|]; simpl; [|congruence].
  specialize (IH (S k) (Z.lor code rc) e).
  by destruct (batch outcomes (S k) n (Z.lor code rc)).
Qed.

Lemma batch_launch_failed outcomes codes : forall k n code,
  (forall i rc, codes !! i = Some rc -> outcomes (k + i) = Exited rc) ->
  outcomes (k + length codes) = LaunchFailed ->
  length codes < n ->
  batch outcomes k n code = (Raise OSError, S (length codes)).
Proof.
  induction codes as [|rc codes IH]; intros k n code Hexit Hfail Hlen;
    destruct n as [|n]; cbn [length] in *; try lia; cbn [batch].
  - rewrite Nat.add_0_r in Hfail. by rewrite Hfail.
  - pose proof (Hexit 0 rc eq_refl) as Hfirst.
    rewrite Nat.add_0_r in Hfirst. rewrite Hfirst.
    rewrite (IH (S k) n); [done| | |lia].
    + intros i rc' Hi. replace (S k + i) with (k + S i) by lia.
      by apply Hexit.
    + by replace (S k + length codes) with (k + S (length codes)) by lia.
Qed.

(** The script when every child of the batch exits. *)
Lemma script_exited G g w given native extra benches codes :
  sys_argv w = cli g given native extra ->
  benches_to_run (default "all" given) (registry G g) = inr benches ->
  benches <> [] ->
  length codes = length benches ->
  exit_with w codes ->
  script G w =
    (fold_left Z.lor codes 0%Z,
     advance (staged g native w) (length benches)
       (steps banner (argv_of g extra) (env_of g w) (child_env_of g native w)
          benches)).
Proof.
  intros Hargv Hsel Hne Hlen Hexit.
  rewrite script_eq, (main_handle G g w given native extra benches Hargv Hsel).
  rewrite (handle_batch G g w _ native extra benches Hsel Hne).
  rewrite <- Hlen, (batch_exited (children w) codes (spawned w) 0%Z Hexit).
  cbn [fst snd finish]. rewrite advance_advance, app_nil_r, Nat.add_0_r.
  by rewrite Hlen, firstn_all.
Qed.

(** ** Bitwise OR over a list of codes *)

Lemma fold_lor_zero codes : forall code,
  fold_left Z.lor codes code = 0%Z
  <-> code = 0%Z /\ Forall (fun rc => rc = 0%Z) codes.
Proof.
  induction codes as [|rc codes IH]; intros code; cbn [fold_left].
  - split; [by intros ->|by intros [-> _]].
  - rewrite IH, Z.lor_eq_0_iff. split.
    + intros [[-> ->] Hall]. by split; [|constructor].
    + intros [-> Hall]. by inversion Hall; subst.
Qed.

Lemma fold_lor_testbit codes : forall code n,
  Z.testbit (fold_left Z.lor codes code) n
  = Z.testbit code n || existsb (fun rc => Z.testbit rc n) codes.
Proof.
  induction codes as [|rc codes IH]; intros code n; cbn [fold_left existsb].
  - by rewrite orb_false_r.
  - by rewrite IH, Z.lor_spec, orb_assoc.
Qed.

Lemma log2_small a k : (0 < k)%Z -> (0 <= a < 2 ^ k)%Z -> (Z.log2 a < k)%Z.
Proof.
  intros Hk Ha. destruct (Z.eq_dec a 0%Z) as [->|Hne]; [by cbn|].
  apply Z.log2_lt_pow2; lia.
Qed.

Lemma lor_range a b k :
  (0 <= k)%Z -> (0 <= a < 2 ^ k)%Z -> (0 <= b < 2 ^ k)%Z ->
  (0 <= Z.lor a b < 2 ^ k)%Z.
Proof.
  intros Hk Ha Hb.
  assert (Hnonneg : (0 <= Z.lor a b)%Z) by (apply Z.lor_nonneg; lia).
  split; [done|].
  destruct (Z.eq_dec (Z.lor a b) 0%Z) as [->|Hne]; [lia|].
  destruct (Z.eq_dec k 0%Z) as [->|Hk0].
  - assert (a = 0%Z) as -> by (cbn in Ha; lia).
    assert (b = 0%Z) as -> by (cbn in Hb; lia). done.
  - apply Z.log2_lt_pow2; [lia|]. rewrite Z.log2_lor by lia.
    apply Z.max_lub_lt; apply log2_small; lia.
Qed.

Lemma fold_lor_range codes k : forall code,
  (0 <= k)%Z -> (0 <= code < 2 ^ k)%Z ->
  Forall (fun rc => (0 <= rc < 2 ^ k)%Z) codes ->
  (0 <= fold_left Z.lor codes code < 2 ^ k)%Z.
Proof.
  induction codes as [|rc codes IH]; intros code Hk Hcode Hall;
    cbn [fold_left]; [done|].
  inversion Hall as [|? ? Hrc Hrest]; subst.
  apply IH; [done| |done]. by apply lor_range.
Qed.

(** ** Exit status *)

(** X1: when the selection of a run or dhat command resolves to a
    non-empty list of targets and every child exits, the status of the
    process is 0 exactly when every child exited with code 0. *)
Theorem X1_status_zero_iff_every_child_exited_zero :
  forall (G : Globals) (g : BenchGroup) (w : World) (given : option string)
         (native : bool) (extra : list string) (benches : list string)
         (codes : list Z),
    sys_argv w = cli g given native extra ->
    benches_to_run (default "all" given) (registry G g) = inr benches ->
    benches <> [] ->
    length codes = length benches ->
    exit_with w codes ->
    fst (script G w) = 0%Z <-> Forall (fun rc => rc = 0%Z) codes.
Proof.
  intros G g w given native extra benches codes Hargv Hsel Hne Hlen Hexit.
  rewrite (script_exited G g w given native extra benches codes); try done.
  cbn [fst]. rewrite fold_lor_zero.
  split; [by intros [_ Hall]|by intros Hall].
Qed.

Lemma X1_witness :
  let w := boot (cli_dhat None ["--"; "--profile"]) ∅
             (exiting [0; 0; -9]%Z) in
  exit_with w [0; 0; -9]%Z
  /\ (fst (script bench_py w) = 0%Z
      <-> Forall (fun rc => rc = 0%Z) [0; 0; -9]%Z)
  /\ fst (script bench_py w) = (-9)%Z.
Proof.
  intros w.
  assert (Hexit : exit_with w [0; 0; -9]%Z).
  { intros [|[|[|i]]] rc Hi; cbn in Hi; inversion Hi; reflexivity. }
  split; [exact Hexit|]. split; [|reflexivity].
  apply (X1_status_zero_iff_every_child_exited_zero bench_py Profiling w
           None false ["--"; "--profile"] (values (DHAT_BENCHES bench_py)));
    [reflexivity|reflexivity|discriminate|reflexivity|exact Hexit].
Defined.

(** X2: under the same conditions, when every child exits with a code
    between 0 and 255 the status of the process is between 0 and 255 too:
    the bitwise OR never leaves the range of exit statuses. *)
Theorem X2_status_stays_in_exit_code_range :
  forall (G : Globals) (g : BenchGroup) (w : World) (given : option string)
         (native : bool) (extra : list string) (benches : list string)
         (codes : list Z),
    sys_argv w = cli g given native extra ->
    benches_to_run (default "all" given) (registry G g) = inr benches ->
    benches <> [] ->
    length codes = length benches ->
    exit_with w codes ->
    Forall (fun rc => (0 <= rc < 256)%Z) codes ->
    (0 <= fst (script G w) < 256)%Z.
Proof.
  intros G g w given native extra benches codes Hargv Hsel Hne Hlen Hexit
    Hrange.
  rewrite (script_exited G g w given native extra benches codes); try done.
  cbn [fst]. change 256%Z with (2 ^ 8)%Z.
  apply fold_lor_range; [lia|cbn; lia|done].
Qed.

Lemma X2_witness :
  let w := boot (cli_run None true []) ∅ (exiting [101; 2; 255]%Z) in
  exit_with w [101; 2; 255]%Z
  /\ Forall (fun rc => (0 <= rc < 256)%Z) [101; 2; 255]%Z
  /\ (0 <= fst (script bench_py w) < 256)%Z.
Proof.
  intros w.
  assert (Hexit : exit_with w [101; 2; 255]%Z).
  { intros [|[|[|i]]] rc Hi; cbn in Hi; inversion Hi; reflexivity. }
  assert (Hrange : Forall (fun rc => (0 <= rc < 256)%Z) [101; 2; 255]%Z).
  { repeat constructor; lia. }
  split; [exact Hexit|]. split; [exact Hrange|].
  apply (X2_status_stays_in_exit_code_range bench_py Measurement w None true
           [] (values (CRITERION_BENCHES bench_py)) [101; 2; 255]%Z);
    [reflexivity|reflexivity|discriminate|reflexivity|exact Hexit
    |exact Hrange].
Defined.

(** X3: under the same conditions, a bit is set in the status of the
    process exactly when it is set in the code of at least one child: no
    failure is masked and no bit is invented. *)
Theorem X3_status_bit_set_iff_set_in_some_code :
  forall (G : Globals) (g : BenchGroup) (w : World) (given : option string)
         (native : bool) (extra : list string) (benches : list string)
         (codes : list Z) (n : Z),
    sys_argv w = cli g given native extra ->
    benches_to_run (default "all" given) (registry G g) = inr benches ->
    benches <> [] ->
    length codes = length benches ->
    exit_with w codes ->
    Z.testbit (fst (script G w)) n
    = existsb (fun rc => Z.testbit rc n) codes.
Proof.
  intros G g w given native extra benches codes n Hargv Hsel Hne Hlen Hexit.
  rewrite (script_exited G g w given native extra benches codes); try done.
  cbn [fst]. by rewrite fold_lor_testbit, Z.testbit_0_l.
Qed.

Lemma X3_witness :
  let w := boot (cli_run None false []) ∅ (exiting [0; 2; 4]%Z) in
  exit_with w [0; 2; 4]%Z
  /\ Z.testbit (fst (script bench_py w)) 1
     = existsb (fun rc => Z.testbit rc 1) [0; 2; 4]%Z
  /\ fst (script bench_py w) = 6%Z.
Proof.
  intros w.
  assert (Hexit : exit_with w [0; 2; 4]%Z).
  { intros [|[|[|i]]] rc Hi; cbn in Hi; inversion Hi; reflexivity. }
  split; [exact Hexit|]. split; [|reflexivity].
  apply (X3_status_bit_set_iff_set_in_some_code bench_py Measurement w None
           false [] (values (CRITERION_BENCHES bench_py)) [0; 2; 4]%Z 1%Z);
    [reflexivity|reflexivity|discriminate|reflexivity|exact Hexit].
Defined.

(** X4: selecting one registered key on the command line spawns exactly
    one child, for the target registered under the key, and when that
    child exits the status of the process is its code, unchanged. *)
Theorem X4_single_selection_returns_the_child_code :
  forall (G : Globals) (g : BenchGroup) (w : World) (key target : string)
         (native : bool) (extra : list string) (rc : Z),
    key <> "all" ->
    getitem (registry G g) key = Some target ->
    sys_argv w = cli g (Some key) native extra ->
    children w (spawned w) = Exited rc ->
    fst (script G w) = rc
    /\ calls (since w (snd (script G w))) = [argv_of g extra target]
    /\ spawned (snd (script G w)) = spawned w + 1.
Proof.
  intros G g w key target native extra rc Hkey Hget Hargv Hchild.
  assert (Hsel : benches_to_run (default "all" (Some key)) (registry G g)
                 = inr [target]).
  { cbn [default from_option id]. unfold benches_to_run. rewrite Hget.
    by destruct (String.eqb_spec key "all"). }
  rewrite (script_exited G g w (Some key) native extra [target] [rc]);
    [|done|done|done|done|].
  - cbn [fst snd fold_left]. rewrite since_staged.
    split; [done|]. split; [done|]. destruct g; cbn; lia.
  - intros [|i] rc' Hi; cbn in Hi; inversion Hi; subst.
    by rewrite Nat.add_0_r.
Qed.

Lemma X4_witness :
  let w := boot (cli_run (Some "io") false ["--"; "--baseline"; "main"]) ∅
             (exiting [3%Z]) in
  "io" <> "all"
  /\ getitem (registry bench_py Measurement) "io" = Some "criterion_io"
  /\ fst (script bench_py w) = 3%Z
  /\ calls (since w (snd (script bench_py w)))
     = [ ["cargo"; "bench"; "--bench"; "criterion_io"; "--"; "--baseline";
          "main"] ]
  /\ spawned (snd (script bench_py w)) = 1.
Proof.
  intros w. split; [discriminate|]. split; [reflexivity|].
  apply (X4_single_selection_returns_the_child_code bench_py Measurement w
           "io" "criterion_io" false ["--"; "--baseline"; "main"] 3%Z);
    [discriminate|reflexivity|reflexivity|reflexivity].
Defined.

(** X5: a child that cannot be launched ends the batch.  When the children
    before it exit, with whatever codes, the targets up to and including
    the one whose launch failed are called, in order, and no target after
    it; the [OSError] is not caught, so the interpreter prints the
    traceback last and the process exits with status 1, whatever the codes
    collected so far. *)
Theorem X5_launch_failure_ends_the_batch :
  forall (G : Globals) (g : BenchGroup) (w : World) (given : option string)
         (native : bool) (extra : list string) (benches : list string)
         (codes : list Z),
    sys_argv w = cli g given native extra ->
    benches_to_run (default "all" given) (registry G g) = inr benches ->
    length codes < length benches ->
    exit_with w codes ->
    children w (spawned w + length codes) = LaunchFailed ->
    fst (script G w) = 1%Z
    /\ calls (since w (snd (script G w)))
       = map (argv_of g extra) (take (S (length codes)) benches)
    /\ last (since w (snd (script G w))) = Some (Stderr "OSError")
    /\ spawned (snd (script G w)) = spawned w + S (length codes).
Proof.
  intros G g w given native extra benches codes Hargv Hsel Hlen Hexit Hfail.
  assert (Hne : benches <> []) by (intros ->; cbn in Hlen; lia).
  rewrite script_eq, (main_handle G g w given native extra benches Hargv Hsel).
  rewrite (handle_batch G g w _ native extra benches Hsel Hne).
  rewrite (batch_launch_failed (children w) codes (spawned w)
             (length benches) 0%Z Hexit Hfail Hlen).
  cbn [fst snd finish traceback]. rewrite advance_advance, since_staged.
  split; [done|]. split; [|split].
  - by rewrite calls_app, calls_steps, app_nil_r.
  - by rewrite last_snoc.
  - destruct g; cbn; lia.
Qed.

Lemma X5_witness :
  let w := boot (cli_run None false []) ∅ (failing_at 1 [2%Z]) in
  exit_with w [2%Z]
  /\ children w (spawned w + 1) = LaunchFailed
  /\ fst (script bench_py w) = 1%Z
  /\ calls (since w (snd (script bench_py w)))
     = [ ["cargo"; "bench"; "--bench"; "criterion_pipeline"];
         ["cargo"; "bench"; "--bench"; "criterion_transformers"] ]
  /\ last (since w (snd (script bench_py w))) = Some (Stderr "OSError")
  /\ spawned (snd (script bench_py w)) = 2.
Proof.
  intros w.
  assert (Hexit : exit_with w [2%Z]).
  { intros [|i] rc Hi; cbn in Hi; inversion Hi; reflexivity. }
  split; [exact Hexit|]. split; [reflexivity|].
  apply (X5_launch_failure_ends_the_batch bench_py Measurement w None false
           [] (values (CRITERION_BENCHES bench_py)) [2%Z]);
    [reflexivity|reflexivity|cbn; lia|exact Hexit|reflexivity].
Defined.

(** ** The command line *)

Lemma handle_set_argv G g selected native extra argv w :
  handle G g selected native extra (set_argv argv w)
  = (fst (handle G g selected native extra w),
     set_argv argv (snd (handle G g selected native extra w))).
Proof.
  destruct (benches_to_run selected (registry G g)) as [e|benches] eqn:Hsel.
  - rewrite !(handle_unregistered G g _ selected native extra e Hsel).
    by destruct g.
  - destruct (decide (benches = [])) as [->|Hne].
    + rewrite !(handle_empty G g _ selected native extra Hsel). by destruct g.
    + rewrite !(handle_batch G g _ selected native extra benches Hsel Hne).
      by destruct g.
Qed.

(** X6: leaving [--bench] out is the same as giving [--bench all]: from
    the same world, the two command lines end with the same status, the
    same events, the same environment and the same dictionaries. *)
Theorem X6_omitted_bench_means_all :
  forall (G : Globals) (g : BenchGroup) (w : World) (native : bool)
         (extra : list string),
    let omitted := script G (set_argv (cli g None native extra) w) in
    let explicit := script G (set_argv (cli g (Some "all") native extra) w) in
    fst omitted = fst explicit
    /\ trace (snd omitted) = trace (snd explicit)
    /\ environ (snd omitted) = environ (snd explicit)
    /\ objects (snd omitted) = objects (snd explicit).
Proof.
  intros G g w native extra. cbv zeta. rewrite !script_eq.
  rewrite (main_handle G g _ None native extra (values (registry G g)));
    [|by destruct g|done].
  rewrite (main_handle G g _ (Some "all") native extra
             (values (registry G g))); [|by destruct g|done].
  cbn [default from_option id]. rewrite !handle_set_argv. done.
Qed.

(** X7: [main] never raises [KeyError]: a selection that the parser
    accepts is "all" or a key of the table, which [benches_to_run] resolves,
    and every other selection is rejected by the parser.  What [main] can
    raise is the parser's [SystemExit] and the [OSError] of a failed
    launch. *)
Theorem X7_main_never_raises_KeyError :
  forall (G : Globals) (w : World) (key : string),
    fst (main G w) <> Raise (KeyError key).
Proof.
  intros G w key.
  assert (Hgroup : forall g given native extra,
    sys_argv w = cli g given native extra ->
    fst (main G w) <> Raise (KeyError key)).
  { intros g given native extra Hargv.
    destruct (decide (default "all" given ∈ "all" :: keys (registry G g)))
      as [Hin|Hout].
    - destruct (choice_resolves _ _ Hin) as [benches Hsel].
      rewrite (main_handle G g w given native extra benches Hargv Hsel).
      destruct (decide (benches = [])) as [->|Hne].
      + by rewrite (handle_empty G g w _ native extra Hsel).
      + rewrite (handle_batch G g w _ native extra benches Hsel Hne).
        cbn [fst]. intros Hraise.
        by apply batch_raises in Hraise.
    - destruct given as [selected|].
      + by rewrite (main_rejected G g w selected native extra Hargv Hout).
      + exfalso. apply Hout, elem_of_cons. by left. }
  destruct (sys_argv w) as [given native extra|given extra| |] eqn:Hargv.
  - by apply (Hgroup Measurement given native extra).
  - by apply (Hgroup Profiling given false extra).
  - by rewrite (main_list G w Hargv), handle_list_eq.
  - by rewrite (main_malformed G w Hargv).
Qed.

(** ** The helper [run_cmd] *)


(** ** The run command *)

(** X9: without the native flag, when the selection of a run command
    resolves to a non-empty list of targets, the handler makes at least one
    call, and every child receives the inherited environment as it is,
    through a dict that is a copy made by this command and not
    [os.environ] itself. *)
Theorem X9_run_without_native_passes_the_environment_on :
  forall (G : Globals) (args : RunArgs.t) (w : World)
         (benches : list string),
    RunArgs.native args = false ->
    benches_to_run (RunArgs.bench args) (CRITERION_BENCHES G) = inr benches ->
    benches <> [] ->
    let w' := snd (handle_run G args w) in
    1 <= length (child_envs (since w w'))
    /\ Forall (fun child_env : Env => child_env = environ w)
         (child_envs (since w w'))
    /\ Forall (fun env : option Ref =>
                 env = Some (obj (length (objects w))))
         (env_args (since w w'))
    /\ environ w' = environ w.
Proof.
  intros G args w benches Hnative Hsel Hne.
  rewrite (handle_run_batch G args w benches Hsel Hne). cbn [snd].
  pose proof (batch_progress (children w) (spawned w) 0%Z benches Hne)
    as Hm.
  set (m := snd (batch (children w) (spawned w) (length benches) 0%Z)) in *.
  rewrite (since_staged Measurement), child_envs_steps, env_args_steps.
  rewrite Hnative, length_map, length_take.
  split; [lia|]. split; [by apply Forall_const|].
  split; [by apply Forall_const|done].
Qed.

Lemma X9_witness :
  let args := {| RunArgs.bench := "all"; RunArgs.native := false;
                 RunArgs.extra := [] |} in
  let w := boot (cli_run None false [])
             {[ "RUSTFLAGS" := "-Z foo"; "HOME" := "/root" ]}
             (exiting [0; 0; 0]%Z) in
  RunArgs.native args = false
  /\ child_envs (since w (snd (handle_run bench_py args w)))
     = [ {[ "RUSTFLAGS" := "-Z foo"; "HOME" := "/root" ]};
         {[ "RUSTFLAGS" := "-Z foo"; "HOME" := "/root" ]};
         {[ "RUSTFLAGS" := "-Z foo"; "HOME" := "/root" ]} ]
  /\ Forall (fun child_env : Env =>
               child_env = {[ "RUSTFLAGS" := "-Z foo"; "HOME" := "/root" ]})
       (child_envs (since w (snd (handle_run bench_py args w)))).
Proof.
  intros args w. split; [reflexivity|]. split; [vm_compute; reflexivity|].
  destruct (X9_run_without_native_passes_the_environment_on bench_py args w
              (values (CRITERION_BENCHES bench_py)))
    as (_ & Hall & _); [reflexivity|reflexivity|discriminate|].
  exact Hall.
Defined.

(** X10: when the selection of a run command resolves to a non-empty list
    of targets, the handler makes at least one call, for the targets in
    order, and the argument vector of every call is [cargo bench --bench
    <target>] followed by the extra arguments as given, in order; nothing
    is put between them and nothing is added when there are none. *)
Theorem X10_run_argv_is_the_base_then_the_extras :
  forall (G : Globals) (args : RunArgs.t) (w : World)
         (benches : list string),
    benches_to_run (RunArgs.bench args) (CRITERION_BENCHES G) = inr benches ->
    benches <> [] ->
    let w' := snd (handle_run G args w) in
    let m := spawned w' - spawned w in
    1 <= m <= length benches
    /\ calls (since w w')
       = map (fun bench =>
                ["cargo"; "bench"; "--bench"; bench] ++ RunArgs.extra args)
           (take m benches).
Proof.
  intros G args w benches Hsel Hne.
  rewrite (handle_run_batch G args w benches Hsel Hne). cbn [snd].
  pose proof (batch_progress (children w) (spawned w) 0%Z benches Hne)
    as Hm.
  set (m := snd (batch (children w) (spawned w) (length benches) 0%Z)) in *.
  rewrite (since_staged Measurement), calls_steps. cbn [advance spawned].
  replace (spawned (prepared (RunArgs.native args) w) + m - spawned w)
    with m by (cbn; lia).
  done.
Qed.

Lemma X10_witness :
  let quiet := {| RunArgs.bench := "io"; RunArgs.native := false;
                  RunArgs.extra := [] |} in
  let given := {| RunArgs.bench := "io"; RunArgs.native := true;
                  RunArgs.extra := ["--"; "--baseline"; "main"] |} in
  let w := boot (cli_run (Some "io") false []) ∅ (exiting [0%Z]) in
  calls (since w (snd (handle_run bench_py quiet w)))
  = [ ["cargo"; "bench"; "--bench"; "criterion_io"] ]
  /\ calls (since w (snd (handle_run bench_py given w)))
     = [ ["cargo"; "bench"; "--bench"; "criterion_io"; "--"; "--baseline";
          "main"] ].
Proof.
  intros quiet given w. split.
  - destruct (X10_run_argv_is_the_base_then_the_extras bench_py quiet w
                ["criterion_io"]) as [_ H];
      [reflexivity|discriminate|exact H].
  - destruct (X10_run_argv_is_the_base_then_the_extras bench_py given w
                ["criterion_io"]) as [_ H];
      [reflexivity|discriminate|exact H].
Defined.

(** ** The lines of the list command *)

Lemma append_cons c s1 s2 : String c s1 +:+ s2 = String c (s1 +:+ s2).
Proof. reflexivity. Qed.

Lemma append_nil s : EmptyString +:+ s = s.
Proof. reflexivity. Qed.

Lemma length_append s1 s2 :
  String.length (s1 +:+ s2) = String.length s1 + String.length s2.
Proof.
  induction s1 as [|c s1 IH]; [done|].
  rewrite append_cons. cbn [String.length]. by rewrite IH.
Qed.

Lemma length_spaces n : String.length (spaces n) = n.
Proof.
  induction n as [|n IH]; [done|].
  cbn [spaces]. rewrite append_cons, append_nil. cbn [String.length].
  by rewrite IH.
Qed.

Lemma length_ljust width s :
  String.length (ljust width s) = Nat.max width (String.length s).
Proof. unfold ljust. rewrite length_append, length_spaces. lia. Qed.

Lemma substring_skip s1 s2 m :
  substring (String.length s1) m (s1 +:+ s2) = substring 0 m s2.
Proof.
  induction s1 as [|c s1 IH]; [done|].
  rewrite append_cons. cbn [String.length substring]. apply IH.
Qed.

Lemma substring_whole s : substring 0 (String.length s) s = s.
Proof.
  induction s as [|c s IH]; [done|].
  cbn [String.length substring]. by rewrite IH.
Qed.

Lemma substring_head s1 s2 :
  substring 0 (String.length s1) (s1 +:+ s2) = s1.
Proof.
  induction s1 as [|c s1 IH]; [by destruct s2|].
  rewrite append_cons. cbn [String.length substring]. by rewrite IH.
Qed.

Lemma append_assoc s1 s2 s3 : (s1 +:+ s2) +:+ s3 = s1 +:+ (s2 +:+ s3).
Proof.
  induction s1 as [|c s1 IH]; [done|].
  rewrite !append_cons. by rewrite IH.
Qed.

(** X11: the line the list command prints for an entry whose key has at
    most twelve characters has the key at column 2, in full, and the arrow
    [" -> "] at column 14, followed by the target and nothing else: the
    arrows of all such lines are aligned. *)
Theorem X11_list_lines_are_aligned :
  forall key target : string,
    String.length key <= 12 ->
    substring 2 (String.length key) (list_line (key, target)) = key
    /\ substring 14 (4 + String.length target) (list_line (key, target))
       = " -> " +:+ target
    /\ String.length (list_line (key, target)) = 18 + String.length target.
Proof.
  intros key target Hlen. unfold list_line. cbn [fst snd].
  assert (Hpad : String.length (ljust 12 key) = 12)
    by (rewrite length_ljust; lia).
  split; [|split].
  - change (substring 2 (String.length key)
              ("  " +:+ ljust 12 key +:+ " -> " +:+ target))
      with (substring 0 (String.length key)
              (ljust 12 key +:+ " -> " +:+ target)).
    unfold ljust. rewrite append_assoc. apply substring_head.
  - change (substring 14 (4 + String.length target)
              ("  " +:+ ljust 12 key +:+ " -> " +:+ target))
      with (substring 12 (String.length (" -> " +:+ target))
              (ljust 12 key +:+ " -> " +:+ target)).
    rewrite <- Hpad at 1. rewrite substring_skip. apply substring_whole.
  - rewrite !length_append, Hpad. cbn. lia.
Qed.

Lemma X11_witness :
  String.length "transformers" <= 12
  /\ substring 2 12 (list_line ("transformers", "dhat_transformers"))
     = "transformers"
  /\ substring 14 21 (list_line ("transformers", "dhat_transformers"))
     = " -> dhat_transformers"
  /\ substring 14 14 (list_line ("build", "dhat_build")) = " -> dhat_build".
Proof.
  split; [cbn; lia|].
  destruct (X11_list_lines_are_aligned "transformers" "dhat_transformers")
    as (Hkey & Harrow & _); [cbn; lia|].
  destruct (X11_list_lines_are_aligned "build" "dhat_build")
    as (_ & Harrow' & _); [cbn; lia|].
  split; [exact Hkey|]. split; [exact Harrow|exact Harrow'].
Defined.

(** ** The selector *)

(** X12: [benches_to_run] returns the empty list in one case only, the
    selection "all" on a table without entries; a selection that names a
    key never resolves to nothing.  So the handlers' message that no bench
    was selected can only come from an empty table. *)
Theorem X12_only_all_on_an_empty_table_resolves_to_nothing :
  forall (selected : string) (table : Registry),
    benches_to_run selected table = inr [] <-> selected = "all" /\ table = [].
Proof.
  intros selected table. unfold benches_to_run, values.
  destruct (String.eqb_spec selected "all") as [->|Hne].
  - destruct table as [|item rest]; cbn [map]; split.
    + done.
    + done.
    + discriminate.
    + by intros [_ ?].
  - destruct (getitem table selected) as [target|]; split;
      try discriminate; by intros [? _].
Qed.
